(** * DSM: UDS protocol engine over the OpenPort serial-to-CAN adapter

    Shallow embedding of [dsm_protocol.py] (class [DSMProtocol]) and of the
    sending half of [openport_connector.py] (class [OpenPortConnector]).

    - Python integers are [Z]; [>>] is [Z.shiftr] and [&] is [Z.land], which
      agree with Python on negative numbers as well.
    - A [bytes] object is a [list byte]; a list of integers handed to
      [bytes(...)] is a [list Z], and the conversion fails with [ValueError]
      outside [0, 255].
    - [None] versus a value is [option]; exceptions are the [Raise] outcome
      of a state-and-error monad over the state of the connector and of the
      adapter behind it.
    - Time is counted in integer milliseconds: [2.0] s is [2000], [0.1] s is
      [100], [0.02] s is [20]. *)

From Stdlib Require Import ZArith List String Ascii Bool Lia.
From Stdlib Require Import Strings.Byte Sorting.Sorted DecimalString.
Import ListNotations.

Local Open Scope Z_scope.

(** ** Python values *)

Definition bytes := list byte.

Definition byte_val (b : byte) : Z := Z.of_N (Byte.to_N b).

(** [bytes(data)] on a list of integers: every item must be in [range(256)]. *)
Definition byte_of_int (z : Z) : option byte :=
  if (0 <=? z) && (z <? 256) then Byte.of_N (Z.to_N z) else None.

Fixpoint bytes_of_ints (data : list Z) : option bytes :=
  match data with
  | [] => Some []
  | z :: rest =>
      match byte_of_int z, bytes_of_ints rest with
      | Some b, Some bs => Some (b :: bs)
      | _, _ => None
      end
  end.

(** [list(key)] on a bytes object. *)
Definition ints_of_bytes (b : bytes) : list Z := map byte_val b.

Definition hex_digit (upper : bool) (d : N) : ascii :=
  match d with
  | 0%N => "0" | 1%N => "1" | 2%N => "2" | 3%N => "3" | 4%N => "4"
  | 5%N => "5" | 6%N => "6" | 7%N => "7" | 8%N => "8" | 9%N => "9"
  | 10%N => if upper then "A" else "a"
  | 11%N => if upper then "B" else "b"
  | 12%N => if upper then "C" else "c"
  | 13%N => if upper then "D" else "d"
  | 14%N => if upper then "E" else "e"
  | _ => if upper then "F" else "f"
  end%char.

(** [bytes.hex()]: two lowercase digits per byte. *)
Fixpoint hex (data : bytes) : string :=
  match data with
  | [] => EmptyString
  | b :: rest =>
      let n := Byte.to_N b in
      String (hex_digit false (n / 16)) (String (hex_digit false (n mod 16)) (hex rest))
  end.

(** Digits of a natural number in base 16, most significant first. *)
Fixpoint hex_digits (fuel : nat) (upper : bool) (n : N) (acc : string) : string :=
  match fuel with
  | O => acc
  | S fuel' =>
      let acc' := String (hex_digit upper (n mod 16)) acc in
      if (n / 16 =? 0)%N then acc' else hex_digits fuel' upper (n / 16) acc'
  end.

Definition to_hex (upper : bool) (n : N) : string :=
  hex_digits (S (N.to_nat (N.size n))) upper n EmptyString.

Fixpoint zeros (k : nat) : string :=
  match k with O => EmptyString | S k' => String "0"%char (zeros k') end.

(** The format specification [03X]: uppercase hexadecimal, padded with zeros
    after the sign to a width of three characters. *)
Definition format_03X (can_id : Z) : string :=
  let digits := to_hex true (Z.abs_N can_id) in
  let sign := if can_id <? 0 then "-"%string else EmptyString in
  let pad := (3 - String.length sign - String.length digits)%nat in
  (sign ++ zeros pad ++ digits)%string.

Definition CR : string := String (ascii_of_nat 13) EmptyString.

(** ** The connector and the adapter behind it *)

(** What one call of [receive_can_frame] sees: how long it took and what it
    returned, [None] or the pair [(can_id, data)]. *)
Record RxEvent := mkRx {
  rx_elapsed : N;
  rx_frame : option (Z * bytes)
}.

(** State of an [OpenPortConnector] together with the serial line and the
    clock.  [serial_out] lists the commands written to the port, oldest
    first.  [write_faults] scripts the port: the head says whether the next
    [serial.write] raises; once the script is used up writes succeed.
    [rx_script] scripts the inbound side, one entry per call of
    [receive_can_frame]; once it is used up the bus is silent.  [scanning]
    is the stop flag of the user interface ([DSMReaderGUI.scanning]), which
    [stop_scan] clears. *)
Record World := mkWorld {
  is_connected : bool;
  now : Z;
  serial_out : list string;
  write_faults : list bool;
  rx_script : list RxEvent;
  scanning : bool
}.

Definition set_now (t : Z) (w : World) : World :=
  mkWorld (is_connected w) t (serial_out w) (write_faults w) (rx_script w) (scanning w).

Definition set_serial_out (l : list string) (w : World) : World :=
  mkWorld (is_connected w) (now w) l (write_faults w) (rx_script w) (scanning w).

Definition set_write_faults (l : list bool) (w : World) : World :=
  mkWorld (is_connected w) (now w) (serial_out w) l (rx_script w) (scanning w).

Definition set_rx_script (l : list RxEvent) (w : World) : World :=
  mkWorld (is_connected w) (now w) (serial_out w) (write_faults w) l (scanning w).

Definition set_scanning (b : bool) (w : World) : World :=
  mkWorld (is_connected w) (now w) (serial_out w) (write_faults w) (rx_script w) b.

(** [time.sleep(ms)] *)
Definition sleep (ms : Z) (w : World) : World := set_now (now w + ms) w.

Module OpenPortConnector.

(** The text of the command: [f't{can_id:03X}{data.hex()}\r']. *)
Definition frame_line (can_id : Z) (data : bytes) : string :=
  ("t" ++ format_03X can_id ++ hex data ++ CR)%string.

(** [serial.write(cmd.encode())] inside the [try]: [true] when it
    returned, [false] when it raised. *)
Definition serial_write (cmd : string) (w : World) : bool * World :=
  match write_faults w with
  | true :: rest => (false, set_write_faults rest w)
  | false :: rest => (true, set_serial_out (serial_out w ++ [cmd]) (set_write_faults rest w))
  | [] => (true, set_serial_out (serial_out w ++ [cmd]) w)
  end.

Definition send_can_frame (can_id : Z) (data : bytes) (w : World) : bool * World :=
  if negb (is_connected w) then (false, w)
  else serial_write (frame_line can_id data) w.

(** [receive_can_frame(timeout)] through its result; the reading and parsing
    of the line are the adapter's side of [rx_script], and the port is taken
    to stay open.  Not connected: [None] at once.  A timeout that is not
    positive: the loop body never runs, [None] at once.  Otherwise the call
    returns what the adapter delivers, after the time that takes; with
    nothing left to deliver it returns [None] when [timeout] has passed. *)
Definition receive_can_frame (timeout : Z) (w : World) : option (Z * bytes) * World :=
  if negb (is_connected w) then (None, w)
  else if timeout <=? 0 then (None, w)
  else
    match rx_script w with
    | [] => (None, set_now (now w + timeout) w)
    | ev :: rest =>
        (rx_frame ev, set_rx_script rest (set_now (now w + Z.of_N (rx_elapsed ev)) w))
    end.

End OpenPortConnector.

(** ** State and exceptions *)

Inductive exn := IndexError | TypeError | ValueError.

Inductive result (A : Type) :=
| Ok (a : A)
| Raise (e : exn).
Arguments Ok {A} a.
Arguments Raise {A} e.

Definition M (A : Type) : Type := World -> result A * World.

Definition ret {A} (a : A) : M A := fun w => (Ok a, w).

Definition raise {A} (e : exn) : M A := fun w => (Raise e, w).

Definition bind {A B} (m : M A) (k : A -> M B) : M B :=
  fun w =>
    match m w with
    | (Ok a, w') => k a w'
    | (Raise e, w') => (Raise e, w')
    end.

Notation "x <- m ;; k" := (bind m (fun x => k))
  (at level 61, m at next level, right associativity).

(** Operations on a response, which is [None] or a bytes object. *)

Definition truthy (r : option bytes) : bool :=
  match r with
  | Some (_ :: _) => true
  | _ => false
  end.

Definition len (r : option bytes) : M Z :=
  match r with
  | Some b => ret (Z.of_nat (List.length b))
  | None => raise TypeError
  end.

(** [r[i]] for a constant index [i >= 0]. *)
Definition getitem (r : option bytes) (i : nat) : M Z :=
  match r with
  | Some b =>
      match nth_error b i with
      | Some x => ret (byte_val x)
      | None => raise IndexError
      end
  | None => raise TypeError
  end.

(** [r[i:]] *)
Definition slice_from (r : option bytes) (i : nat) : M bytes :=
  match r with
  | Some b => ret (skipn i b)
  | None => raise TypeError
  end.

(** ** The protocol engine, [class DSMProtocol] *)

(** The attributes set by [__init__], apart from the connector, whose state
    is part of [World]. *)
Record DSMProtocol := mkDSMProtocol {
  tx_id : Z;
  rx_id : Z
}.

Definition DSMProtocol_init : DSMProtocol := mkDSMProtocol 0x7E0 0x7E8.

(** The [while] loop of [_send_uds].  One unit of [fuel] is one evaluation of
    the loop condition; [None] means the fuel ran out before the loop ended. *)
Fixpoint _send_uds_loop (fuel : nat) (self : DSMProtocol) (start_time : Z) (w : World)
  : option (option bytes * World) :=
  match fuel with
  | O => None
  | S fuel' =>
      if now w - start_time <? 2000 then
        match OpenPortConnector.receive_can_frame 100 w with
        | (Some (resp_id, resp_data), w1) =>
            if resp_id =? rx_id self then Some (Some resp_data, w1)
            else _send_uds_loop fuel' self start_time w1
        | (None, w1) => _send_uds_loop fuel' self start_time w1
        end
      else Some (None, w)
  end.

(** Evaluations of the loop condition that always suffice on a connected
    line: one per scripted reception, twenty silent slices, and the last one
    that leaves the loop ([_send_uds_loop_total] below). *)
Definition poll_fuel (w : World) : nat := (List.length (rx_script w) + 21)%nat.

(** [_send_uds(data)].  [bytes(data)] raises [ValueError] on an item outside
    [range(256)].  The loop is run with [poll_fuel], which never runs out
    after a successful send ([poll_fuel_enough] below), so the last branch
    is never taken. *)
Definition _send_uds (self : DSMProtocol) (data : list Z) : M (option bytes) :=
  fun w =>
    match bytes_of_ints data with
    | None => (Raise ValueError, w)
    | Some payload =>
        match OpenPortConnector.send_can_frame (tx_id self) payload w with
        | (false, w1) => (Ok None, w1)
        | (true, w1) =>
            let start_time := now w1 in
            match _send_uds_loop (poll_fuel w1) self start_time w1 with
            | Some (response, w2) => (Ok response, w2)
            | None => (Ok None, w1)
            end
        end
    end.

Definition start_session (self : DSMProtocol) : M (option bytes) :=
  _send_uds self [0x10; 0x03].

Definition read_data_by_identifier (self : DSMProtocol) (data_id : Z) : M (option bytes) :=
  let data := [0x22; Z.land (Z.shiftr data_id 8) 0xFF; Z.land data_id 0xFF] in
  response <- _send_uds self data ;;
  long_enough <- (if truthy response then n <- len response ;; ret (2 <? n) else ret false) ;;
  if long_enough then
    b0 <- getitem response 0 ;;
    if b0 =? 0x62 then
      b1 <- getitem response 1 ;;
      echoed <- (if b1 =? Z.shiftr data_id 8
                 then b2 <- getitem response 2 ;; ret (b2 =? Z.land data_id 0xFF)
                 else ret false) ;;
      if echoed then
        tail <- slice_from response 3 ;;
        ret (Some tail)
      else ret None
    else ret None
  else ret None.

(** What [security_access] returns: [None], the seed, or a boolean. *)
Inductive sa_value :=
| SANone
| SASeed (seed : bytes)
| SABool (b : bool).

Definition security_access (self : DSMProtocol) (level : Z) (key : option bytes) : M sa_value :=
  if level =? 1 then
    response <- _send_uds self [0x27; 0x01] ;;
    long_enough <- (if truthy response then n <- len response ;; ret (2 <? n) else ret false) ;;
    if long_enough then
      b0 <- getitem response 0 ;;
      accepted <- (if b0 =? 0x67
                   then b1 <- getitem response 1 ;; ret (b1 =? 0x01)
                   else ret false) ;;
      if accepted then
        seed <- slice_from response 2 ;;
        ret (SASeed seed)
      else ret SANone
    else ret SANone
  else if (level =? 2) && truthy key then
    match key with
    | Some k =>
        let data := [0x27; 0x02] ++ ints_of_bytes k in
        response <- _send_uds self data ;;
        ret (SABool (match response with Some _ => true | None => false end))
    | None => raise TypeError
    end
  else ret SANone.

Definition read_memory_by_address (self : DSMProtocol) (address length : Z) : M (option bytes) :=
  let data := [0x23; 0x44; 0x22] in
  let data := data ++ [Z.land (Z.shiftr address 24) 0xFF; Z.land (Z.shiftr address 16) 0xFF;
                       Z.land (Z.shiftr address 8) 0xFF; Z.land address 0xFF] in
  let data := data ++ [Z.land (Z.shiftr length 8) 0xFF; Z.land length 0xFF] in
  response <- _send_uds self data ;;
  accepted <- (if truthy response
               then b0 <- getitem response 0 ;; ret (b0 =? 0x63)
               else ret false) ;;
  if accepted then
    tail <- slice_from response 1 ;;
    ret (Some tail)
  else ret None.

(** [range(start, stop, step)] as the list of its items: [ValueError] for a
    zero step, otherwise [start + i * step] for [i] below the length of the
    range. *)
Definition range_len (start stop step : Z) : Z :=
  if 0 <? step then Z.max 0 ((stop - start + step - 1) / step)
  else Z.max 0 ((start - stop - step - 1) / (- step)).

Definition range (start stop step : Z) : result (list Z) :=
  if step =? 0 then Raise ValueError
  else Ok (map (fun i => start + Z.of_nat i * step)
               (seq 0 (Z.to_nat (range_len start stop step)))).

(** The body of the [for] loop of [scan_eeprom_segments], over the items of
    the range that are left. *)
Fixpoint scan_loop (self : DSMProtocol) (ids : list Z) (segments : list (Z * bytes))
  : M (list (Z * bytes)) :=
  match ids with
  | [] => ret segments
  | seg_id :: rest =>
      data <- read_data_by_identifier self seg_id ;;
      let segments :=
        match data with
        | Some d =>
            if truthy data && (0 <? Z.of_nat (List.length d))
            then segments ++ [(seg_id, d)]
            else segments
        | None => segments
        end in
      _ <- (fun w => (Ok tt, sleep 20 w)) ;;
      scan_loop self rest segments
  end.

Definition scan_eeprom_segments (self : DSMProtocol) (start_id end_id step : Z)
  : M (list (Z * bytes)) :=
  fun w =>
    match range start_id (end_id + 1) step with
    | Ok ids => scan_loop self ids [] w
    | Raise e => (Raise e, w)
    end.

(** * The life of a connection

    [connect], [disconnect], [_send_command] and [test_connection] of
    [class OpenPortConnector].  The connector state of [World] is extended
    with the attributes these methods use. *)

(** [self.serial]: [None], a port that is open, or a port that was closed. *)
Inductive Handle := NoSerial | SerialOpen | SerialClosed.

(** What [serial.read(100).decode().strip()] gives: the time the read took
    and the text, or [None] when the read or the decoding raised.  The read
    takes its bytes from the input of the port, the one [receive_can_frame]
    reads its lines from, so it may take frames that were waiting there, or
    parts of them: [reply_left] is what the read leaves of the receptions to
    come. *)
Record Reply := mkReply {
  reply_elapsed : N;
  reply_text : option string;
  reply_left : list RxEvent
}.

(** An [OpenPortConnector].  [line] holds [is_connected], the clock and the
    two directions of the serial line.  [open_faults] scripts the opening of
    the port: the head says whether the next [serial.Serial(...)] raises;
    once the script is used up the port opens.  [replies] scripts the reads of
    the answers of the adapter to commands; once it is used up nothing
    reaches the port while a command waits for its answer, and the read
    returns the empty text when the read timeout of the port, one second,
    has passed. *)
Record Connector := mkConnector {
  line : World;
  baudrate : Z;
  serial : Handle;
  open_faults : list bool;
  replies : list Reply
}.

Definition set_line (w : World) (c : Connector) : Connector :=
  mkConnector w (baudrate c) (serial c) (open_faults c) (replies c).

Definition set_serial (h : Handle) (c : Connector) : Connector :=
  mkConnector (line c) (baudrate c) h (open_faults c) (replies c).

Definition set_open_faults (l : list bool) (c : Connector) : Connector :=
  mkConnector (line c) (baudrate c) (serial c) l (replies c).

Definition set_replies (l : list Reply) (c : Connector) : Connector :=
  mkConnector (line c) (baudrate c) (serial c) (open_faults c) l.

Definition set_is_connected (b : bool) (w : World) : World :=
  mkWorld b (now w) (serial_out w) (write_faults w) (rx_script w) (scanning w).

(** [__init__(port, baudrate)] on a line that nothing was written to. *)
Definition OpenPortConnector_init (rate : Z) : Connector :=
  mkConnector (mkWorld false 0 [] [] [] false) rate NoSerial [] [].

(** [str(n)] for an integer, as an f-string formats it. *)
Definition decimal (n : Z) : string := NilZero.string_of_int (Z.to_int n).

(** [_send_command(cmd)]; [None] for the text means an exception left the
    method.  A write to a closed port raises. *)
Definition _send_command (cmd : string) (c : Connector) : option string * Connector :=
  match serial c with
  | NoSerial => (Some EmptyString, c)
  | SerialClosed => (None, c)
  | SerialOpen =>
      match OpenPortConnector.serial_write (cmd ++ CR) (line c) with
      | (false, w1) => (None, set_line w1 c)
      | (true, w1) =>
          let w2 := sleep 50 w1 in
          match replies c with
          | [] => (Some EmptyString, set_line (sleep 1000 w2) c)
          | r :: rest =>
              (reply_text r,
               set_replies rest
                 (set_line (set_rx_script (reply_left r)
                              (sleep (Z.of_N (reply_elapsed r)) w2)) c))
          end
      end
  end.

(** A statement of the [try] block of [connect]: an exception ends the block
    with [False]. *)
Definition try_command (cmd : string) (k : Connector -> bool * Connector)
           (c : Connector) : bool * Connector :=
  match _send_command cmd c with
  | (None, c1) => (false, c1)
  | (Some _, c1) => k c1
  end.

Definition pause (ms : Z) (c : Connector) : Connector := set_line (sleep ms (line c)) c.

Definition connect (c : Connector) : bool * Connector :=
  match open_faults c with
  | true :: rest => (false, set_open_faults rest c)
  | faults =>
      let c0 := set_serial SerialOpen (set_open_faults (tl faults) c) in
      try_command "C" (fun c1 =>
      try_command "O" (fun c2 =>
      try_command ("S" ++ decimal (baudrate c2)) (fun c3 =>
      try_command "M1" (fun c4 =>
        (true, set_line (set_is_connected true (line c4)) c4))
        (pause 100 c3))
        (pause 100 c2))
        (pause 100 c1))
        c0
  end.

Definition disconnect (c : Connector) : Connector :=
  let c1 := match serial c with
            | SerialOpen => set_serial SerialClosed c
            | _ => c
            end in
  set_line (set_is_connected false (line c1)) c1.

(** ['OpenPort' in response] *)
Definition contains (needle text : string) : bool :=
  match String.index 0 needle text with
  | Some _ => true
  | None => false
  end.

Definition test_connection (c : Connector) : bool * Connector :=
  match _send_command "V" c with
  | (Some response, c1) => (contains "OpenPort" response, c1)
  | (None, c1) => (false, c1)
  end.


(** * Reading a frame back

    The body of the [try] block of [receive_can_frame], from the decoded
    text of the line to the pair that is returned.  A text is a string of
    code points below 256. *)

(** [c.isspace()] for a code point below 256: the ASCII white space, the
    separators [0x1C] to [0x1F], the next-line character [0x85] and the
    no-break space [0xA0]. *)
Definition is_space (c : ascii) : bool :=
  let n := N_of_ascii c in
  ((9 <=? n) && (n <=? 13) || (28 <=? n) && (n <=? 32) || (n =? 133) || (n =? 160))%N.

Fixpoint lstrip (s : string) : string :=
  match s with
  | String c rest => if is_space c then lstrip rest else s
  | EmptyString => EmptyString
  end.

Fixpoint rstrip (s : string) : string :=
  match s with
  | String c rest =>
      match rstrip rest with
      | EmptyString => if is_space c then EmptyString else String c EmptyString
      | kept => String c kept
      end
  | EmptyString => EmptyString
  end.

(** [s.strip()] *)
Definition strip (s : string) : string := rstrip (lstrip s).

(** The value of a character of ['0123456789ABCDEFabcdef'], [None] for any
    other character. *)
Definition hex_value (c : ascii) : option N :=
  let n := N_of_ascii c in
  if ((48 <=? n) && (n <=? 57))%N then Some (n - 48)%N
  else if ((65 <=? n) && (n <=? 70))%N then Some (n - 55)%N
  else if ((97 <=? n) && (n <=? 102))%N then Some (n - 87)%N
  else None.

(** The digits that [''.join(c for c in data_hex if c in '0123...')] keeps,
    by their values. *)
Fixpoint kept_digits (s : string) : list N :=
  match s with
  | String c rest =>
      match hex_value c with
      | Some d => d :: kept_digits rest
      | None => kept_digits rest
      end
  | EmptyString => []
  end.

(** [bytes.fromhex] on a text of hexadecimal digits, given by their values:
    two digits a byte, [None] ([ValueError]) for an odd number of digits. *)
Fixpoint bytes_of_digits (digits : list N) : option bytes :=
  match digits with
  | [] => Some []
  | hi :: lo :: rest =>
      match Byte.of_N (16 * hi + lo)%N, bytes_of_digits rest with
      | Some b, Some bs => Some (b :: bs)
      | _, _ => None
      end
  | [_] => None
  end.

(** [s[i:]] *)
Fixpoint drop (i : nat) (s : string) : string :=
  match i, s with
  | S i', String _ rest => drop i' rest
  | _, _ => s
  end.

Section FrameDecoding.

(** [int(text, 16)], with [None] for [ValueError]. *)
Variable int16 : string -> option Z.

(** Lines 80 to 88 of [receive_can_frame] on the decoded text of a line:
    [None] when the line does not start with [t] or when an exception sends
    the loop on to the next line. *)
Definition parse_frame (text : string) : option (Z * bytes) :=
  let line := strip text in
  match line with
  | String "t"%char _ =>
      match int16 (substring 1 3 line) with
      | Some can_id =>
          match bytes_of_digits (kept_digits (drop 4 line)) with
          | Some data => Some (can_id, data)
          | None => None
          end
      | None => None
      end
  | _ => None
  end.

End FrameDecoding.

(** Three hexadecimal digits, upper case, and the number they spell. *)
Definition three_digits (a b c : N) : string :=
  String (hex_digit true a) (String (hex_digit true b) (String (hex_digit true c) EmptyString)).

(** What is asked of [int(text, 16)]: a text of three upper-case hexadecimal
    digits is read as the number it spells. *)
Definition reads_three_digits (int16 : string -> option Z) : Prop :=
  forall a b c : N,
    (a < 16)%N -> (b < 16)%N -> (c < 16)%N ->
    int16 (three_digits a b c) = Some (Z.of_N (256 * a + 16 * b + c)).

(** An instance for trying things out: it reads exactly the texts of three
    hexadecimal digits. *)
Definition int16_three (text : string) : option Z :=
  match text with
  | String a (String b (String c EmptyString)) =>
      match hex_value a, hex_value b, hex_value c with
      | Some x, Some y, Some z => Some (Z.of_N (256 * x + 16 * y + z))
      | _, _, _ => None
      end
  | _ => None
  end.

(** * The hex viewer

    [display_hex_data] of [class DSMReaderGUI], as the text it hands to the
    viewer. *)

(** The format specifications [02X] and [04X]: upper-case hexadecimal, padded
    with zeros after the sign to the width. *)
Definition format_X (width : nat) (n : Z) : string :=
  let digits := to_hex true (Z.abs_N n) in
  let sign := if n <? 0 then "-"%string else EmptyString in
  let pad := (width - String.length sign - String.length digits)%nat in
  (sign ++ zeros pad ++ digits)%string.

Fixpoint spaces (k : nat) : string :=
  match k with O => EmptyString | S k' => String " "%char (spaces k') end.

(** [s.ljust(width)] *)
Definition ljust (width : nat) (s : string) : string :=
  (s ++ spaces (width - String.length s))%string.

(** [' '.join(items)] *)
Fixpoint join_space (items : list string) : string :=
  match items with
  | [] => EmptyString
  | [x] => x
  | x :: rest => (x ++ " " ++ join_space rest)%string
  end.

Definition hex_column (chunk : bytes) : string :=
  ljust 47 (join_space (map (fun b => format_X 2 (byte_val b)) chunk)).

(** [chr(b)] for a printable byte, a dot for the others. *)
Definition shown (b : byte) : ascii :=
  let n := Byte.to_N b in
  if ((32 <=? n) && (n <=? 126))%N then ascii_of_N n else "."%char.

Fixpoint ascii_column (chunk : bytes) : string :=
  match chunk with
  | [] => EmptyString
  | b :: rest => String (shown b) (ascii_column rest)
  end.

Definition LF : string := String (ascii_of_nat 10) EmptyString.

(** One turn of the loop: [f"{i:04X}:  {hex_str}  {ascii_str}\n"]. *)
Definition dump_line (i : Z) (chunk : bytes) : string :=
  (format_X 4 i ++ ":  " ++ hex_column chunk ++ "  " ++ ascii_column chunk ++ LF)%string.

(** [data[i:i+16]] for [i >= 0] *)
Definition chunk_at (data : bytes) (i : Z) : bytes :=
  firstn 16 (skipn (Z.to_nat i) data).

Definition dump_lines (data : bytes) : list string :=
  match range 0 (Z.of_nat (List.length data)) 16 with
  | Ok offsets => map (fun i => dump_line i (chunk_at data i)) offsets
  | Raise _ => []
  end.

Definition display_hex_data (data : bytes) : string :=
  String.concat EmptyString (dump_lines data).

(** * The scan loop of the user interface

    [read_dsm_segment], [scan_dsm_thread] and [stop_scan] of
    [class DSMReaderGUI].  The widgets and the log are left out. *)

(** What [serial_conn.read(100)] gives: the time the read took and the
    bytes, or [None] when the read raised. *)
Record PortRead := mkPortRead {
  read_elapsed : N;
  read_bytes : option bytes
}.

(** The window, as far as the scan goes.  [gui_line] holds the clock, what
    was written to [serial_conn] and the script of the faults of its writes;
    its field [scanning] is [self.scanning].  [reads] scripts the reads of
    [serial_conn]; once it is used up a read returns no bytes when the read
    timeout of the port, one second, has passed.  [stop_clicks] scripts the
    thread of the window: for each look of the scan loop at the flag, in
    turn, whether [stop_scan] has run since the look before.  [dump_data] is
    [None] as long as the attribute is not set. *)
Record Gui := mkGui {
  gui_line : World;
  serial_conn : Handle;
  reads : list PortRead;
  stop_clicks : list bool;
  dump_data : option (list (Z * bytes))
}.

Definition set_gui_line (w : World) (g : Gui) : Gui :=
  mkGui w (serial_conn g) (reads g) (stop_clicks g) (dump_data g).

Definition set_reads (l : list PortRead) (g : Gui) : Gui :=
  mkGui (gui_line g) (serial_conn g) l (stop_clicks g) (dump_data g).

Definition set_stop_clicks (l : list bool) (g : Gui) : Gui :=
  mkGui (gui_line g) (serial_conn g) (reads g) l (dump_data g).

Definition set_dump_data (d : option (list (Z * bytes))) (g : Gui) : Gui :=
  mkGui (gui_line g) (serial_conn g) (reads g) (stop_clicks g) d.

(** [stop_scan()] *)
Definition stop_scan (g : Gui) : Gui :=
  set_gui_line (set_scanning false (gui_line g)) g.

(** The thread of the window had its turn: a [stop_scan] that was asked for
    has run. *)
Definition hear_stop (g : Gui) : Gui :=
  match stop_clicks g with
  | [] => g
  | click :: rest => set_stop_clicks rest (if click then stop_scan g else g)
  end.

(** [read_dsm_segment(segment_id)].  The request is built before the [try];
    inside it every exception is swallowed.  A read that returned bytes
    gives the five test bytes, whatever it read. *)
Definition read_dsm_segment (segment_id : Z) (g : Gui) : result (option bytes) * Gui :=
  match bytes_of_ints [0x22; Z.land (Z.shiftr segment_id 8) 0xFF; Z.land segment_id 0xFF] with
  | None => (Raise ValueError, g)
  | Some cmd =>
      match serial_conn g with
      | NoSerial => (Ok None, g)
      | SerialClosed => (Ok None, g)
      | SerialOpen =>
          match OpenPortConnector.serial_write
                  (OpenPortConnector.frame_line 0x7E0 cmd) (gui_line g) with
          | (false, w1) => (Ok None, set_gui_line w1 g)
          | (true, w1) =>
              let w2 := sleep 100 w1 in
              match reads g with
              | [] => (Ok None, set_gui_line (sleep 1000 w2) g)
              | r :: rest =>
                  let g1 := set_reads rest
                              (set_gui_line (sleep (Z.of_N (read_elapsed r)) w2) g) in
                  match read_bytes r with
                  | Some (_ :: _) =>
                      match bytes_of_ints [0x00; 0x01; 0x02; 0x03; 0x04] with
                      | Some data => (Ok (Some data), g1)
                      | None => (Ok None, g1)
                      end
                  | _ => (Ok None, g1)
                  end
              end
          end
      end
  end.

(** How the [for] loop of [scan_dsm_thread] ends: it ran out of identifiers
    or left by [break], with what it had collected, or an exception left
    it. *)
Inductive LoopEnd :=
| LoopDone (segments : list (Z * bytes)) (total_bytes : Z)
| LoopRaised.

(** The [for] loop over the identifiers that are left.  The flag is looked
    at before each query and nowhere else.  When a segment has data it is
    appended and counted, and then [self.update_progress_signal], an
    attribute that the class does not define, raises [AttributeError]. *)
Fixpoint scan_dsm_loop (ids : list Z) (segments : list (Z * bytes)) (total_bytes : Z)
         (g : Gui) : LoopEnd * Gui :=
  match ids with
  | [] => (LoopDone segments total_bytes, g)
  | seg_id :: rest =>
      let g0 := hear_stop g in
      if negb (scanning (gui_line g0)) then (LoopDone segments total_bytes, g0)
      else
        match read_dsm_segment seg_id g0 with
        | (Raise _, g1) => (LoopRaised, g1)
        | (Ok (Some (_ :: _)), g1) => (LoopRaised, g1)
        | (Ok _, g1) =>
            scan_dsm_loop rest segments total_bytes
                          (set_gui_line (sleep 100 (gui_line g1)) g1)
        end
  end.

(** [scan_dsm_thread()]: the loop over [range(0xF100, 0xF110)], the keeping
    of what was found, and the clearing of the flag at the end, which also
    follows the [except] branch. *)
Definition scan_dsm_thread (g : Gui) : Gui :=
  let r := match range 0xF100 0xF110 1 with
           | Ok ids => scan_dsm_loop ids [] 0 g
           | Raise _ => (LoopRaised, g)
           end in
  let g2 := match fst r with
            | LoopDone (seg :: segments) _ => set_dump_data (Some (seg :: segments)) (snd r)
            | _ => snd r
            end in
  set_gui_line (set_scanning false (gui_line g2)) g2.

(** * Properties *)

(** ** Bytes *)

Lemma byte_val_range (b : byte) : 0 <= byte_val b < 256.
Proof.
  unfold byte_val. pose proof (Byte.to_N_bounded b). lia.
Qed.

Lemma byte_of_int_val (b : byte) : byte_of_int (byte_val b) = Some b.
Proof.
  unfold byte_of_int. pose proof (byte_val_range b) as H.
  replace (0 <=? byte_val b) with true by (symmetry; apply Z.leb_le; lia).
  replace (byte_val b <? 256) with true by (symmetry; apply Z.ltb_lt; lia).
  simpl. unfold byte_val. rewrite N2Z.id. apply Byte.of_to_N.
Qed.

Lemma byte_of_int_Some (z : Z) (b : byte) : byte_of_int z = Some b -> byte_val b = z.
Proof.
  unfold byte_of_int, byte_val.
  destruct (0 <=? z) eqn:H0; [|discriminate].
  destruct (z <? 256) eqn:H1; [|discriminate]. simpl.
  intros H. apply Byte.to_of_N in H. rewrite H.
  apply Z.leb_le in H0. lia.
Qed.

Lemma byte_of_int_in_range (z : Z) :
  0 <= z < 256 -> exists b, byte_of_int z = Some b /\ byte_val b = z.
Proof.
  intros Hz. unfold byte_of_int.
  replace (0 <=? z) with true by (symmetry; apply Z.leb_le; lia).
  replace (z <? 256) with true by (symmetry; apply Z.ltb_lt; lia).
  simpl. destruct (Byte.of_N (Z.to_N z)) as [b|] eqn:E.
  - exists b. split; [reflexivity|].
    apply Byte.to_of_N in E. unfold byte_val. rewrite E. lia.
  - apply Byte.of_N_None_iff in E. lia.
Qed.

Lemma bytes_of_ints_Some (data : list Z) (p : bytes) :
  bytes_of_ints data = Some p -> map byte_val p = data.
Proof.
  revert p. induction data as [|z rest IH]; simpl; intros p H.
  - inversion H. reflexivity.
  - destruct (byte_of_int z) as [b|] eqn:Eb; [|discriminate].
    destruct (bytes_of_ints rest) as [bs|]; [|discriminate].
    inversion H; subst. simpl. f_equal; [now apply byte_of_int_Some | now apply IH].
Qed.

Lemma bytes_of_ints_val (p : bytes) : bytes_of_ints (map byte_val p) = Some p.
Proof.
  induction p as [|b p IH]; simpl; [reflexivity|].
  now rewrite byte_of_int_val, IH.
Qed.

Lemma bytes_of_ints_in_range (data : list Z) :
  Forall (fun z => 0 <= z < 256) data ->
  exists p, bytes_of_ints data = Some p /\ map byte_val p = data.
Proof.
  induction 1 as [|z rest Hz _ IH]; simpl.
  - exists []. split; reflexivity.
  - destruct (byte_of_int_in_range z Hz) as (b & Eb & Hb).
    destruct IH as (bs & Ebs & Hbs).
    exists (b :: bs). rewrite Eb, Ebs. simpl. now rewrite Hb, Hbs.
Qed.

Lemma land_255_range (z : Z) : 0 <= Z.land z 0xFF < 256.
Proof.
  change 0xFF with (Z.ones 8). rewrite Z.land_ones by lia.
  change (2 ^ 8) with 256. apply Z.mod_pos_bound. lia.
Qed.

Lemma land_255_small (z : Z) : 0 <= z < 256 -> Z.land z 0xFF = z.
Proof.
  intros H. change 0xFF with (Z.ones 8). rewrite Z.land_ones by lia.
  apply Z.mod_small. exact H.
Qed.

Lemma shiftr_range (z : Z) (n k : Z) :
  0 <= n -> 0 <= k -> 0 <= z < 2 ^ (n + k) -> 0 <= Z.shiftr z n < 2 ^ k.
Proof.
  intros Hn Hk Hz. rewrite Z.shiftr_div_pow2 by lia.
  rewrite Z.pow_add_r in Hz by lia.
  assert (0 < 2 ^ n) by (apply Z.pow_pos_nonneg; lia).
  split.
  - apply Z.div_pos; lia.
  - apply Z.div_lt_upper_bound; lia.
Qed.

Lemma hex_length (p : bytes) : String.length (hex p) = (2 * List.length p)%nat.
Proof.
  induction p as [|b p IH]; simpl; [reflexivity|]. rewrite IH. lia.
Qed.

Lemma string_length_app (s t : string) :
  String.length (s ++ t) = (String.length s + String.length t)%nat.
Proof.
  induction s as [|c s IH]; simpl; [reflexivity|]. now rewrite IH.
Qed.

Lemma frame_line_length (can_id : Z) (p : bytes) :
  String.length (OpenPortConnector.frame_line can_id p)
  = (1 + String.length (format_03X can_id) + 2 * List.length p + 1)%nat.
Proof.
  unfold OpenPortConnector.frame_line. simpl.
  rewrite !string_length_app, hex_length. simpl. lia.
Qed.

(** ** Sending and polling *)

Ltac world_simpl :=
  cbn [is_connected now serial_out write_faults rx_script scanning
       set_now set_serial_out set_write_faults set_rx_script set_scanning sleep] in *.

(** Whether [send_can_frame] succeeds: the connector is connected and the
    next write to the port does not raise. *)
Definition can_send (w : World) : bool :=
  is_connected w && negb (hd false (write_faults w)).

(** A reception that the polling loop passes over: no frame, or a frame
    whose arbitration id is not the receive id of the client. *)
Definition passed_over (self : DSMProtocol) (ev : RxEvent) : Prop :=
  forall d, rx_frame ev <> Some (rx_id self, d).

(** Time taken by a run of receptions. *)
Definition elapsed (evs : list RxEvent) : Z :=
  fold_right (fun ev t => Z.of_N (rx_elapsed ev) + t) 0 evs.

Lemma elapsed_nonneg (evs : list RxEvent) : 0 <= elapsed evs.
Proof.
  induction evs as [|ev evs IH]; simpl; lia.
Qed.

Lemma send_can_frame_spec (can_id : Z) (p : bytes) (w : World) :
  let r := OpenPortConnector.send_can_frame can_id p w in
  fst r = can_send w /\
  serial_out (snd r)
  = serial_out w ++ (if can_send w then [OpenPortConnector.frame_line can_id p] else []) /\
  is_connected (snd r) = is_connected w /\
  now (snd r) = now w /\
  rx_script (snd r) = rx_script w /\
  scanning (snd r) = scanning w.
Proof.
  unfold OpenPortConnector.send_can_frame, OpenPortConnector.serial_write, can_send.
  destruct (is_connected w) eqn:Ec; simpl.
  - destruct (write_faults w) as [|[|] rest]; simpl;
      rewrite ?app_nil_r; repeat split; auto.
  - rewrite app_nil_r. repeat split; auto.
Qed.

Lemma _send_uds_loop_sound (fuel : nat) (self : DSMProtocol) (start : Z) :
  forall (w : World) (r : option bytes) (w' : World),
    is_connected w = true ->
    _send_uds_loop fuel self start w = Some (r, w') ->
    exists pre,
      Forall (passed_over self) pre /\
      serial_out w' = serial_out w /\
      is_connected w' = true /\
      scanning w' = scanning w /\
      match r with
      | Some d =>
          exists ev,
            rx_script w = pre ++ ev :: rx_script w' /\
            rx_frame ev = Some (rx_id self, d) /\
            now w + elapsed pre - start < 2000 /\
            now w' = now w + elapsed pre + Z.of_N (rx_elapsed ev)
      | None =>
          rx_script w = pre ++ rx_script w' /\
          2000 <= now w' - start /\
          now w + elapsed pre <= now w'
      end.
Proof.
  induction fuel as [|fuel IH]; intros w r w' Hc Hrun; simpl in Hrun; [discriminate|].
  destruct (now w - start <? 2000) eqn:Hlt.
  - apply Z.ltb_lt in Hlt.
    unfold OpenPortConnector.receive_can_frame in Hrun.
    rewrite Hc in Hrun. simpl in Hrun.
    destruct (rx_script w) as [|ev rest] eqn:Hs.
    + apply IH in Hrun; [|assumption].
      destruct Hrun as (pre & Hpre & Hout & Hcon & Hscan & Hr).
      simpl in Hout, Hscan, Hr. rewrite Hs in Hr.
      exists pre. repeat split; try assumption.
      destruct r as [d|].
      * destruct Hr as (ev & Hsplit & _). destruct pre; discriminate.
      * destruct Hr as (Hsplit & Hdead & Hmono). repeat split; try assumption. lia.
    + assert (Hstep :
        forall r0 w0,
          _send_uds_loop fuel self start
            (set_rx_script rest (set_now (now w + Z.of_N (rx_elapsed ev)) w)) = Some (r0, w0) ->
          passed_over self ev ->
          exists pre,
            Forall (passed_over self) pre /\ serial_out w0 = serial_out w /\
            is_connected w0 = true /\ scanning w0 = scanning w /\
            match r0 with
            | Some d =>
                exists ev0,
                  ev :: rest = pre ++ ev0 :: rx_script w0 /\
                  rx_frame ev0 = Some (rx_id self, d) /\
                  now w + elapsed pre - start < 2000 /\
                  now w0 = now w + elapsed pre + Z.of_N (rx_elapsed ev0)
            | None =>
                ev :: rest = pre ++ rx_script w0 /\
                2000 <= now w0 - start /\ now w + elapsed pre <= now w0
            end).
      { intros r0 w0 Hrec Hev.
        apply IH in Hrec; [|assumption].
        destruct Hrec as (pre & Hpre & Hout & Hcon & Hscan & Hr).
        simpl in Hout, Hscan, Hr.
        exists (ev :: pre). split; [constructor; assumption|].
        repeat split; try assumption.
        destruct r0 as [d|].
        - destruct Hr as (ev0 & Hsplit & Hfr & Hin & Hnow).
          exists ev0. simpl. rewrite <- Hsplit. repeat split; try assumption; lia.
        - destruct Hr as (Hsplit & Hdead & Hmono).
          simpl. rewrite <- Hsplit. repeat split; try assumption; lia. }
      destruct (rx_frame ev) as [[resp_id resp_data]|] eqn:Hfr.
      * destruct (resp_id =? rx_id self) eqn:Hid.
        -- apply Z.eqb_eq in Hid. inversion Hrun; subst r w'. clear Hrun.
           exists []. split; [constructor|]. simpl.
           repeat split; try assumption.
           exists ev. simpl. rewrite Hfr, Hid. repeat split; lia.
        -- apply Z.eqb_neq in Hid. apply Hstep; [assumption|].
           intros d Hd. rewrite Hfr in Hd. inversion Hd. congruence.
      * apply Hstep; [assumption|]. intros d Hd. rewrite Hfr in Hd. discriminate.
  - apply Z.ltb_ge in Hlt. inversion Hrun; subst r w'.
    exists []. split; [constructor|]. simpl. repeat split; auto; lia.
Qed.

(** Polls still possible before the deadline when no reception comes. *)
Definition slices_left (start : Z) (w : World) : nat :=
  Z.to_nat ((2000 - (now w - start) + 99) / 100).

Lemma _send_uds_loop_total (fuel : nat) (self : DSMProtocol) (start : Z) :
  forall w : World,
    is_connected w = true ->
    (List.length (rx_script w) + slices_left start w < fuel)%nat ->
    exists r, _send_uds_loop fuel self start w = Some r.
Proof.
  induction fuel as [|fuel IH]; intros w Hc Hfuel; [lia|].
  cbn [_send_uds_loop]. destruct (now w - start <? 2000) eqn:Hlt; [|eexists; reflexivity].
  apply Z.ltb_lt in Hlt.
  unfold OpenPortConnector.receive_can_frame. rewrite Hc. cbn [negb].
  change (100 <=? 0) with false. cbv iota.
  destruct (rx_script w) as [|ev rest] eqn:Hs.
  - apply IH; [assumption|]. world_simpl. rewrite Hs. cbn [List.length] in *.
    unfold slices_left in *. world_simpl.
    replace ((2000 - (now w + 100 - start) + 99) / 100)
      with ((2000 - (now w - start) + 99) / 100 - 1).
    + assert (1 <= (2000 - (now w - start) + 99) / 100)
        by (apply Z.div_le_lower_bound; lia).
      lia.
    + replace (2000 - (now w + 100 - start) + 99)
        with (2000 - (now w - start) + 99 + (-1) * 100) by lia.
      rewrite Z.div_add by lia. lia.
  - assert (Hnext : (List.length rest
                     + slices_left start
                         (set_rx_script rest (set_now (now w + Z.of_N (rx_elapsed ev)) w))
                     < fuel)%nat).
    { cbn [List.length] in Hfuel. unfold slices_left in *. world_simpl.
      assert ((2000 - (now w + Z.of_N (rx_elapsed ev) - start) + 99) / 100
              <= (2000 - (now w - start) + 99) / 100)
        by (apply Z.div_le_mono; lia).
      lia. }
    destruct (rx_frame ev) as [[resp_id resp_data]|].
    + destruct (resp_id =? rx_id self); [eexists; reflexivity|].
      apply IH; [assumption|exact Hnext].
    + apply IH; [assumption|exact Hnext].
Qed.

Lemma poll_fuel_enough (self : DSMProtocol) (w : World) :
  is_connected w = true ->
  exists r, _send_uds_loop (poll_fuel w) self (now w) w = Some r.
Proof.
  intros Hc. apply _send_uds_loop_total; [assumption|].
  unfold poll_fuel, slices_left.
  replace (2000 - (now w - now w) + 99) with 2099 by lia.
  change (2099 / 100) with 20. lia.
Qed.

Lemma _send_uds_loop_complete (self : DSMProtocol) (start : Z) (d : bytes)
      (ev : RxEvent) (post : list RxEvent) :
  forall (pre : list RxEvent) (fuel : nat) (w : World),
    is_connected w = true ->
    rx_script w = pre ++ ev :: post ->
    Forall (passed_over self) pre ->
    rx_frame ev = Some (rx_id self, d) ->
    now w + elapsed pre - start < 2000 ->
    (List.length pre < fuel)%nat ->
    exists w', _send_uds_loop fuel self start w = Some (Some d, w') /\ rx_script w' = post.
Proof.
  induction pre as [|ev0 pre IH]; intros fuel w Hc Hs Hpre Hfr Hin Hfuel;
    (destruct fuel as [|fuel]; [cbn [List.length] in Hfuel; lia|]);
    cbn [_send_uds_loop].
  - cbn [elapsed fold_right] in Hin.
    replace (now w - start <? 2000) with true by (symmetry; apply Z.ltb_lt; lia).
    unfold OpenPortConnector.receive_can_frame. rewrite Hc, Hs. cbn [negb app].
    change (100 <=? 0) with false. cbv iota. rewrite Hfr, Z.eqb_refl.
    eexists. split; reflexivity.
  - cbn [elapsed fold_right] in Hin. fold (elapsed pre) in Hin.
    pose proof (elapsed_nonneg pre) as Hnn.
    replace (now w - start <? 2000) with true by (symmetry; apply Z.ltb_lt; lia).
    unfold OpenPortConnector.receive_can_frame. rewrite Hc, Hs. cbn [negb app].
    change (100 <=? 0) with false. cbv iota.
    inversion Hpre as [|? ? Hev0 Hrest]; subst.
    assert (Hnext : exists w',
               _send_uds_loop fuel self start
                 (set_rx_script (pre ++ ev :: post)
                    (set_now (now w + Z.of_N (rx_elapsed ev0)) w)) = Some (Some d, w')
               /\ rx_script w' = post).
    { apply IH; world_simpl; try assumption; try reflexivity.
      - lia.
      - cbn [List.length] in Hfuel. lia. }
    destruct (rx_frame ev0) as [[resp_id resp_data]|] eqn:Hfr0; [|exact Hnext].
    destruct (resp_id =? rx_id self) eqn:Hid; [|exact Hnext].
    apply Z.eqb_eq in Hid. subst resp_id. exfalso. exact (Hev0 resp_data Hfr0).
Qed.

(** The first frame with the receive id reaches a poll begun before the
    deadline, and its payload is [d]. *)
Definition frame_arrives (self : DSMProtocol) (w : World) (d : bytes) : Prop :=
  exists pre ev post,
    rx_script w = pre ++ ev :: post /\
    Forall (passed_over self) pre /\
    rx_frame ev = Some (rx_id self, d) /\
    elapsed pre < 2000.

Lemma _send_uds_outcome (self : DSMProtocol) (data : list Z) (payload : bytes) (w : World) :
  bytes_of_ints data = Some payload ->
  let r := _send_uds self data w in
  serial_out (snd r)
  = serial_out w
    ++ (if can_send w then [OpenPortConnector.frame_line (tx_id self) payload] else []) /\
  is_connected (snd r) = is_connected w /\
  scanning (snd r) = scanning w /\
  if can_send w then
    exists pre,
      Forall (passed_over self) pre /\
      match fst r with
      | Ok (Some d) =>
          exists ev,
            rx_script w = pre ++ ev :: rx_script (snd r) /\
            rx_frame ev = Some (rx_id self, d) /\
            elapsed pre < 2000 /\
            now (snd r) = now w + elapsed pre + Z.of_N (rx_elapsed ev)
      | Ok None =>
          rx_script w = pre ++ rx_script (snd r) /\
          2000 <= now (snd r) - now w
      | Raise _ => False
      end
  else fst r = Ok None /\ rx_script (snd r) = rx_script w /\ now (snd r) = now w.
Proof.
  intros Hb. unfold _send_uds. rewrite Hb.
  pose proof (send_can_frame_spec (tx_id self) payload w) as Hsend.
  destruct (OpenPortConnector.send_can_frame (tx_id self) payload w) as [ok w1].
  cbn [fst snd] in Hsend. destruct Hsend as (Hok & Hout & Hcon & Hnow & Hrx & Hscan).
  subst ok. destruct (can_send w) eqn:Hcs.
  - assert (Hc : is_connected w1 = true).
    { rewrite Hcon. unfold can_send in Hcs. now apply andb_true_iff in Hcs. }
    destruct (poll_fuel_enough self w1 Hc) as ([r w2] & Hrun).
    rewrite Hrun. cbn [fst snd].
    destruct (_send_uds_loop_sound _ _ _ _ _ _ Hc Hrun)
      as (pre & Hpre & Hout2 & Hcon2 & Hscan2 & Hr).
    repeat split; try congruence.
    exists pre. split; [assumption|].
    destruct r as [d|].
    + destruct Hr as (ev & Hsplit & Hfr & Hin & Hnow2).
      exists ev. repeat split; try congruence; lia.
    + destruct Hr as (Hsplit & Hdead & _). split; [congruence | lia].
  - cbn [fst snd]. repeat split; assumption.
Qed.

Lemma _send_uds_ok (self : DSMProtocol) (data : list Z) (payload : bytes) (w : World) :
  bytes_of_ints data = Some payload ->
  exists response, fst (_send_uds self data w) = Ok response.
Proof.
  intros Hb. destruct (_send_uds_outcome self data payload w Hb) as (_ & _ & _ & H).
  destruct (can_send w).
  - destruct H as (pre & _ & H).
    destruct (fst (_send_uds self data w)) as [r|e]; [eexists; reflexivity | contradiction].
  - destruct H as (H & _). eexists; eassumption.
Qed.

Lemma _send_uds_Some_iff (self : DSMProtocol) (data : list Z) (payload : bytes)
      (w : World) (d : bytes) :
  bytes_of_ints data = Some payload ->
  fst (_send_uds self data w) = Ok (Some d) <-> can_send w = true /\ frame_arrives self w d.
Proof.
  intros Hb. split.
  - intros Hres.
    destruct (_send_uds_outcome self data payload w Hb) as (_ & _ & _ & H).
    destruct (can_send w); [|destruct H as (H & _); congruence].
    split; [reflexivity|]. destruct H as (pre & Hpre & H). rewrite Hres in H.
    destruct H as (ev & Hsplit & Hfr & Hin & _).
    exists pre, ev, (rx_script (snd (_send_uds self data w))). auto.
  - intros (Hcs & pre & ev & post & Hsplit & Hpre & Hfr & Hin).
    unfold _send_uds. rewrite Hb.
    pose proof (send_can_frame_spec (tx_id self) payload w) as Hsend.
    destruct (OpenPortConnector.send_can_frame (tx_id self) payload w) as [ok w1].
    cbn [fst snd] in Hsend. destruct Hsend as (Hok & _ & Hcon & Hnow & Hrx & _).
    subst ok. rewrite Hcs.
    assert (Hc : is_connected w1 = true).
    { rewrite Hcon. unfold can_send in Hcs. now apply andb_true_iff in Hcs. }
    destruct (_send_uds_loop_complete self (now w1) d ev post pre (poll_fuel w1) w1)
      as (w2 & Hrun & _); try assumption.
    + congruence.
    + lia.
    + unfold poll_fuel. rewrite Hrx, Hsplit, length_app. lia.
    + rewrite Hrun. reflexivity.
Qed.

(** ** Validation of the response *)

(** The outcome of each operation as a function of the response that
    [_send_uds] hands back; the lemmas [*_run] below show that the
    operations compute these functions and raise nothing while doing so. *)

Definition data_of_response (data_id : Z) (response : option bytes) : option bytes :=
  match response with
  | Some (b0 :: b1 :: b2 :: tail) =>
      if (byte_val b0 =? 0x62) && (byte_val b1 =? Z.shiftr data_id 8)
         && (byte_val b2 =? Z.land data_id 0xFF)
      then Some tail else None
  | _ => None
  end.

Definition seed_of_response (response : option bytes) : sa_value :=
  match response with
  | Some (b0 :: b1 :: b2 :: tail) =>
      if (byte_val b0 =? 0x67) && (byte_val b1 =? 0x01)
      then SASeed (b2 :: tail) else SANone
  | _ => SANone
  end.

Definition memory_of_response (response : option bytes) : option bytes :=
  match response with
  | Some (b0 :: tail) => if byte_val b0 =? 0x63 then Some tail else None
  | _ => None
  end.

Definition lift_result {A B} (f : A -> B) (r : result A * World) : result B * World :=
  match r with
  | (Ok a, w) => (Ok (f a), w)
  | (Raise e, w) => (Raise e, w)
  end.

Ltac run_validation :=
  cbv [bind ret raise len getitem slice_from truthy lift_result nth_error skipn];
  repeat match goal with
         | |- context [2 <? Z.of_nat ?n] =>
             let E := fresh "E" in
             destruct (2 <? Z.of_nat n) eqn:E;
             [ | apply Z.ltb_ge in E; cbn [List.length] in E; lia ]
         | |- context [?a =? ?b] => destruct (a =? b)
         end;
  cbn [andb]; try reflexivity.

Lemma read_data_by_identifier_run (self : DSMProtocol) (data_id : Z) (w : World) :
  read_data_by_identifier self data_id w
  = lift_result (data_of_response data_id)
      (_send_uds self [0x22; Z.land (Z.shiftr data_id 8) 0xFF; Z.land data_id 0xFF] w).
Proof.
  unfold read_data_by_identifier, bind at 1.
  destruct (_send_uds self _ w) as [[response|e] w1]; [|reflexivity].
  destruct response as [[|b0 [|b1 [|b2 tail]]]|]; unfold data_of_response;
    run_validation.
Qed.

Lemma security_access_seed_run (self : DSMProtocol) (key : option bytes) (w : World) :
  security_access self 1 key w
  = lift_result seed_of_response (_send_uds self [0x27; 0x01] w).
Proof.
  unfold security_access. change (1 =? 1) with true. cbv iota.
  unfold bind at 1.
  destruct (_send_uds self _ w) as [[response|e] w1]; [|reflexivity].
  destruct response as [[|b0 [|b1 [|b2 tail]]]|]; unfold seed_of_response;
    run_validation.
Qed.

Lemma security_access_key_run (self : DSMProtocol) (b : byte) (k : bytes) (w : World) :
  security_access self 2 (Some (b :: k)) w
  = lift_result (fun response => SABool (match response with Some _ => true | None => false end))
      (_send_uds self ([0x27; 0x02] ++ ints_of_bytes (b :: k)) w).
Proof.
  unfold security_access. change (2 =? 1) with false. change (2 =? 2) with true.
  cbn [truthy andb]. cbv iota. unfold bind, ret, lift_result.
  destruct (_send_uds self _ w) as [[response|e] w1]; reflexivity.
Qed.

Lemma read_memory_by_address_run (self : DSMProtocol) (address length : Z) (w : World) :
  read_memory_by_address self address length w
  = lift_result memory_of_response
      (_send_uds self
         [0x23; 0x44; 0x22;
          Z.land (Z.shiftr address 24) 0xFF; Z.land (Z.shiftr address 16) 0xFF;
          Z.land (Z.shiftr address 8) 0xFF; Z.land address 0xFF;
          Z.land (Z.shiftr length 8) 0xFF; Z.land length 0xFF] w).
Proof.
  unfold read_memory_by_address. cbn [app]. unfold bind at 1.
  destruct (_send_uds self _ w) as [[response|e] w1]; [|reflexivity].
  destruct response as [[|b0 tail]|]; unfold memory_of_response; run_validation.
Qed.

(** Byte [i] of a payload as a number, when the payload is that long. *)
Definition byte_at (resp : bytes) (i : nat) : option Z :=
  option_map byte_val (nth_error resp i).

(** The payload is a positive read-data response that echoes [data_id]. *)
Definition echoes (data_id : Z) (resp : bytes) : Prop :=
  byte_at resp 0 = Some 0x62 /\
  byte_at resp 1 = Some (Z.shiftr data_id 8) /\
  byte_at resp 2 = Some (Z.land data_id 0xFF).

Lemma data_of_response_Some (data_id : Z) (response : option bytes) (out : bytes) :
  data_of_response data_id response = Some out
  <-> exists resp, response = Some resp /\ echoes data_id resp /\ out = skipn 3 resp.
Proof.
  unfold data_of_response, echoes, byte_at. split.
  - destruct response as [[|b0 [|b1 [|b2 tail]]]|]; try discriminate.
    destruct (byte_val b0 =? 98) eqn:E0; [|discriminate].
    destruct (byte_val b1 =? Z.shiftr data_id 8) eqn:E1; [|discriminate].
    destruct (byte_val b2 =? Z.land data_id 255) eqn:E2; [|discriminate].
    cbn [andb]. intros H. inversion H; subst.
    apply Z.eqb_eq in E0, E1, E2.
    eexists. split; [reflexivity|]. cbn [nth_error option_map skipn].
    rewrite E0, E1, E2. auto.
  - intros (resp & -> & (H0 & H1 & H2) & ->).
    destruct resp as [|b0 [|b1 [|b2 tail]]]; try discriminate.
    cbn [nth_error option_map] in H0, H1, H2.
    inversion H0 as [E0]; inversion H1 as [E1]; inversion H2 as [E2].
    rewrite E0, E1, E2, !Z.eqb_refl. reflexivity.
Qed.

Lemma memory_of_response_Some (response : option bytes) (out : bytes) :
  memory_of_response response = Some out
  <-> exists resp, response = Some resp /\ byte_at resp 0 = Some 0x63 /\ out = skipn 1 resp.
Proof.
  unfold memory_of_response, byte_at. split.
  - destruct response as [[|b0 tail]|]; try discriminate.
    destruct (byte_val b0 =? 99) eqn:E0; [|discriminate].
    intros H. inversion H; subst. apply Z.eqb_eq in E0.
    eexists. split; [reflexivity|]. cbn [nth_error option_map skipn].
    rewrite E0. auto.
  - intros (resp & -> & H0 & ->).
    destruct resp as [|b0 tail]; try discriminate.
    cbn [nth_error option_map] in H0. inversion H0 as [E0].
    rewrite E0. reflexivity.
Qed.

Lemma seed_of_response_Seed (response : option bytes) (seed : bytes) :
  seed_of_response response = SASeed seed
  <-> exists resp,
        response = Some resp /\ (2 < List.length resp)%nat /\
        byte_at resp 0 = Some 0x67 /\ byte_at resp 1 = Some 0x01 /\ seed = skipn 2 resp.
Proof.
  unfold seed_of_response, byte_at. split.
  - destruct response as [[|b0 [|b1 [|b2 tail]]]|]; try discriminate.
    destruct (byte_val b0 =? 103) eqn:E0; [|discriminate].
    destruct (byte_val b1 =? 1) eqn:E1; [|discriminate].
    cbn [andb]. intros H. inversion H; subst.
    apply Z.eqb_eq in E0, E1.
    eexists. split; [reflexivity|]. cbn [nth_error option_map skipn List.length].
    rewrite E0, E1. repeat split; auto; lia.
  - intros (resp & -> & Hlen & H0 & H1 & ->).
    destruct resp as [|b0 [|b1 [|b2 tail]]]; cbn [List.length] in Hlen; try lia.
    cbn [nth_error option_map] in H0, H1.
    inversion H0 as [E0]; inversion H1 as [E1].
    rewrite E0, E1. reflexivity.
Qed.

Lemma seed_of_response_cases (response : option bytes) :
  seed_of_response response = SANone \/ exists seed, seed_of_response response = SASeed seed.
Proof.
  unfold seed_of_response.
  destruct response as [[|b0 [|b1 [|b2 tail]]]|]; auto.
  destruct ((byte_val b0 =? 103) && (byte_val b1 =? 1)); eauto.
Qed.

Lemma fst_lift_result {A B} (f : A -> B) (r : result A * World) (a : A) :
  fst r = Ok a -> fst (lift_result f r) = Ok (f a).
Proof.
  destruct r as [[x|e] w]; cbn; intros H; inversion H; reflexivity.
Qed.

Lemma snd_lift_result {A B} (f : A -> B) (r : result A * World) :
  snd (lift_result f r) = snd r.
Proof.
  destruct r as [[x|e] w]; reflexivity.
Qed.

(** The request lists of the operations are lists of bytes. *)

Lemma read_data_request_bytes (data_id : Z) :
  Forall (fun z => 0 <= z < 256)
         [0x22; Z.land (Z.shiftr data_id 8) 0xFF; Z.land data_id 0xFF].
Proof.
  repeat constructor; try apply land_255_range; lia.
Qed.

Lemma read_memory_request_bytes (address length : Z) :
  Forall (fun z => 0 <= z < 256)
         [0x23; 0x44; 0x22;
          Z.land (Z.shiftr address 24) 0xFF; Z.land (Z.shiftr address 16) 0xFF;
          Z.land (Z.shiftr address 8) 0xFF; Z.land address 0xFF;
          Z.land (Z.shiftr length 8) 0xFF; Z.land length 0xFF].
Proof.
  repeat constructor; try apply land_255_range; lia.
Qed.

Lemma key_request_bytes (k : bytes) :
  exists p, bytes_of_ints ([0x27; 0x02] ++ ints_of_bytes k) = Some p
            /\ map byte_val p = [0x27; 0x02] ++ map byte_val k.
Proof.
  apply bytes_of_ints_in_range. unfold ints_of_bytes.
  repeat constructor; try lia.
  apply Forall_forall. intros z Hz. apply in_map_iff in Hz.
  destruct Hz as (b & <- & _). apply byte_val_range.
Qed.

(** A connected adapter that delivers [frames], ten milliseconds apart, to an
    idle client. *)
Definition world_replying (frames : list (Z * bytes)) : World :=
  mkWorld true 0 [] [] (map (fun f => mkRx 10 (Some f)) frames) true.

Definition bytes_lit (l : list Z) : bytes :=
  match bytes_of_ints l with Some b => b | None => [] end.

(** ** The operations *)

Lemma read_data_by_identifier_ok (self : DSMProtocol) (data_id : Z) (w : World) :
  exists v, fst (read_data_by_identifier self data_id w) = Ok v.
Proof.
  rewrite read_data_by_identifier_run.
  destruct (bytes_of_ints_in_range _ (read_data_request_bytes data_id)) as (p & Hp & _).
  destruct (_send_uds_ok self _ p w Hp) as (response & Hr).
  eexists. apply fst_lift_result. exact Hr.
Qed.

(** C1. [read_data_by_identifier] returns the bytes of the response from
    offset 3 exactly when the request was sent and the frame resolved against
    the receive id has byte 0 equal to [0x62] and bytes 1 and 2 equal to
    [data_id >> 8] and [data_id & 0xFF]; in every other case (send failure,
    timeout, negative response, wrong service byte, wrong echo, short
    response) it returns the one value [None]. *)
Theorem read_data_by_identifier_accepts (self : DSMProtocol) (data_id : Z) (w : World) :
  let got := fst (read_data_by_identifier self data_id w) in
  (forall out,
      got = Ok (Some out)
      <-> can_send w = true /\
          exists resp, frame_arrives self w resp /\ echoes data_id resp /\ out = skipn 3 resp) /\
  ((~ exists resp, can_send w = true /\ frame_arrives self w resp /\ echoes data_id resp)
   -> got = Ok None).
Proof.
  cbv zeta. rewrite read_data_by_identifier_run.
  destruct (bytes_of_ints_in_range _ (read_data_request_bytes data_id)) as (p & Hp & _).
  destruct (_send_uds_ok self _ p w Hp) as (response & Hr).
  rewrite (fst_lift_result _ _ _ Hr).
  assert (Hiff : forall out,
             Ok (data_of_response data_id response) = Ok (Some out)
             <-> can_send w = true /\
                 exists resp, frame_arrives self w resp /\ echoes data_id resp
                              /\ out = skipn 3 resp).
  { intros out. split.
    - intros H. inversion H as [H']. apply data_of_response_Some in H'.
      destruct H' as (resp & -> & He & ->).
      apply (_send_uds_Some_iff self _ p w resp Hp) in Hr. destruct Hr as (Hcs & Harr).
      split; [assumption|]. exists resp. auto.
    - intros (Hcs & resp & Harr & He & ->).
      assert (Hr' : fst (_send_uds self
                [0x22; Z.land (Z.shiftr data_id 8) 0xFF; Z.land data_id 0xFF] w)
                    = Ok (Some resp))
        by (apply (_send_uds_Some_iff self _ p w resp Hp); auto).
      rewrite Hr in Hr'. inversion Hr'; subst response.
      f_equal. apply data_of_response_Some. exists resp. auto. }
  split; [exact Hiff|].
  intros Hnone. destruct (data_of_response data_id response) as [out|] eqn:E; [|reflexivity].
  exfalso. apply Hnone. destruct (proj1 (Hiff out) eq_refl) as (Hcs & resp & Harr & He & _).
  exists resp. auto.
Qed.

(** The example of the text: the response [0x62, idHi, idLo, d0, d1] to the
    query of identifier [0xF190] yields [d0, d1]. *)
Example read_data_by_identifier_example :
  fst (read_data_by_identifier DSMProtocol_init 0xF190
         (world_replying [(0x7E8, bytes_lit [0x62; 0xF1; 0x90; 0x0A; 0x0B])]))
  = Ok (Some (bytes_lit [0x0A; 0x0B])).
Proof. vm_compute. reflexivity. Qed.

(** C2. For an identifier in [0x0000, 0xFFFF] the frame that
    [read_data_by_identifier] writes to the adapter carries exactly the three
    bytes [0x22, id >> 8, id & 0xFF]; nothing else is written, and nothing at
    all when the send fails. *)
Theorem read_data_by_identifier_request (self : DSMProtocol) (data_id : Z) (w : World) :
  0 <= data_id <= 0xFFFF ->
  exists payload,
    map byte_val payload = [0x22; Z.shiftr data_id 8; Z.land data_id 0xFF] /\
    serial_out (snd (read_data_by_identifier self data_id w))
    = serial_out w
      ++ (if can_send w then [OpenPortConnector.frame_line (tx_id self) payload] else []).
Proof.
  intros Hid. rewrite read_data_by_identifier_run, snd_lift_result.
  destruct (bytes_of_ints_in_range _ (read_data_request_bytes data_id)) as (p & Hp & Hval).
  exists p. split.
  - rewrite Hval. rewrite land_255_small; [reflexivity|].
    apply (shiftr_range data_id 8 8); lia.
  - apply (_send_uds_outcome self _ p w Hp).
Qed.

Lemma read_data_by_identifier_request_witness :
  0 <= 0xF190 <= 0xFFFF /\
  exists payload,
    map byte_val payload = [0x22; 0xF1; 0x90] /\
    serial_out (snd (read_data_by_identifier DSMProtocol_init 0xF190 (world_replying [])))
    = [OpenPortConnector.frame_line 0x7E0 payload].
Proof.
  split; [lia|].
  apply (read_data_by_identifier_request DSMProtocol_init 0xF190 (world_replying [])). lia.
Defined.

(** C4. For a 32-bit address and a 16-bit length, the frame that
    [read_memory_by_address] writes carries exactly the nine bytes
    [0x23, 0x44, 0x22], the address and the length, both big-endian; the
    result is the response from offset 1 exactly when the request was sent
    and the resolved response has byte 0 equal to [0x63], and [None]
    otherwise. *)
Theorem read_memory_by_address_spec (self : DSMProtocol) (address length : Z) (w : World) :
  0 <= address < 2 ^ 32 ->
  0 <= length < 2 ^ 16 ->
  let got := read_memory_by_address self address length w in
  (exists payload,
      map byte_val payload
      = [0x23; 0x44; 0x22;
         Z.shiftr address 24; Z.land (Z.shiftr address 16) 0xFF;
         Z.land (Z.shiftr address 8) 0xFF; Z.land address 0xFF;
         Z.shiftr length 8; Z.land length 0xFF] /\
      serial_out (snd got)
      = serial_out w
        ++ (if can_send w then [OpenPortConnector.frame_line (tx_id self) payload] else [])) /\
  (forall out,
      fst got = Ok (Some out)
      <-> can_send w = true /\
          exists resp, frame_arrives self w resp /\ byte_at resp 0 = Some 0x63
                       /\ out = skipn 1 resp) /\
  ((~ exists resp, can_send w = true /\ frame_arrives self w resp
                   /\ byte_at resp 0 = Some 0x63)
   -> fst got = Ok None).
Proof.
  intros Ha Hn. cbv zeta. rewrite read_memory_by_address_run, snd_lift_result.
  destruct (bytes_of_ints_in_range _ (read_memory_request_bytes address length))
    as (p & Hp & Hval).
  destruct (_send_uds_ok self _ p w Hp) as (response & Hr).
  rewrite (fst_lift_result _ _ _ Hr).
  assert (Hiff : forall out,
             Ok (memory_of_response response) = Ok (Some out)
             <-> can_send w = true /\
                 exists resp, frame_arrives self w resp /\ byte_at resp 0 = Some 0x63
                              /\ out = skipn 1 resp).
  { intros out. split.
    - intros H. inversion H as [H']. apply memory_of_response_Some in H'.
      destruct H' as (resp & -> & H0 & ->).
      apply (_send_uds_Some_iff self _ p w resp Hp) in Hr. destruct Hr as (Hcs & Harr).
      split; [assumption|]. exists resp. auto.
    - intros (Hcs & resp & Harr & H0 & ->).
      assert (Hr' : fst (_send_uds self
                [0x23; 0x44; 0x22;
                 Z.land (Z.shiftr address 24) 0xFF; Z.land (Z.shiftr address 16) 0xFF;
                 Z.land (Z.shiftr address 8) 0xFF; Z.land address 0xFF;
                 Z.land (Z.shiftr length 8) 0xFF; Z.land length 0xFF] w)
                    = Ok (Some resp))
        by (apply (_send_uds_Some_iff self _ p w resp Hp); auto).
      rewrite Hr in Hr'. inversion Hr'; subst response.
      f_equal. apply memory_of_response_Some. exists resp. auto. }
  split; [|split; [exact Hiff|]].
  - exists p. split.
    + rewrite Hval.
      rewrite (land_255_small (Z.shiftr address 24))
        by (apply (shiftr_range address 24 8); lia).
      rewrite (land_255_small (Z.shiftr length 8))
        by (apply (shiftr_range length 8 8); lia).
      reflexivity.
    + apply (_send_uds_outcome self _ p w Hp).
  - intros Hnone. destruct (memory_of_response response) as [out|] eqn:E; [|reflexivity].
    exfalso. apply Hnone.
    destruct (proj1 (Hiff out) eq_refl) as (Hcs & resp & Harr & H0 & _).
    exists resp. auto.
Qed.

Lemma read_memory_by_address_spec_witness :
  (0 <= 0x12345678 < 2 ^ 32 /\ 0 <= 0x0100 < 2 ^ 16) /\
  exists payload,
    map byte_val payload = [0x23; 0x44; 0x22; 0x12; 0x34; 0x56; 0x78; 0x01; 0x00] /\
    serial_out (snd (read_memory_by_address DSMProtocol_init 0x12345678 0x0100
                       (world_replying [])))
    = [OpenPortConnector.frame_line 0x7E0 payload].
Proof.
  split; [lia|].
  apply (read_memory_by_address_spec DSMProtocol_init 0x12345678 0x0100 (world_replying []));
    lia.
Defined.

(** A request that could not be sent resolves to [None] at once. *)
Lemma _send_uds_not_sent (self : DSMProtocol) (data : list Z) (w : World) :
  Forall (fun z => 0 <= z < 256) data ->
  can_send w = false ->
  let r := _send_uds self data w in
  fst r = Ok None /\ rx_script (snd r) = rx_script w /\ now (snd r) = now w.
Proof.
  intros Hdata Hcs. destruct (bytes_of_ints_in_range data Hdata) as (p & Hp & _).
  destruct (_send_uds_outcome self data p w Hp) as (_ & _ & _ & H).
  rewrite Hcs in H. exact H.
Qed.

(** Nothing was polled between [w] and [w']: no reception was consumed and
    no time has passed. *)
Definition unpolled (w w' : World) : Prop :=
  rx_script w' = rx_script w /\ now w' = now w.

(** A connected adapter with a response waiting, on which the next write to
    the port raises. *)
Definition world_write_fault : World :=
  set_write_faults [true] (world_replying [(0x7E8, bytes_lit [0x67; 0x02])]).

(** C5, as the text has it, fails for level 2 of [security_access]: when
    the send fails it returns [False], which is not [None]. *)
Lemma security_access_key_send_fails :
  can_send world_write_fault = false /\
  fst (security_access DSMProtocol_init 2 (Some (bytes_lit [0xDE; 0xAD])) world_write_fault)
  = Ok (SABool false) /\
  fst (security_access DSMProtocol_init 2 (Some (bytes_lit [0xDE; 0xAD])) world_write_fault)
  <> Ok SANone.
Proof.
  split; [reflexivity|]. split; [vm_compute; reflexivity|].
  vm_compute. discriminate.
Qed.

(** C5, amended.  Every operation is a validation of what [_send_uds]
    resolves for its request.  When the send fails, each operation returns
    at once, with no reception consumed and no time passed: [None], and
    [False] for level 2 of [security_access].  When the request was sent, the
    loop resolves the payload [d] exactly when [d] is the payload of the
    first frame with the receive id of the client and the poll that received
    it began before the deadline, the receptions before it, with no frame or
    with another arbitration id, having been passed over; it resolves [None]
    exactly when there is no such frame, and then 2000 ms or more have passed
    since the send. *)
Theorem _send_uds_resolution (self : DSMProtocol) (w : World) :
  (start_session self w = _send_uds self [0x10; 0x03] w /\
   (forall data_id,
       read_data_by_identifier self data_id w
       = lift_result (data_of_response data_id)
           (_send_uds self [0x22; Z.land (Z.shiftr data_id 8) 0xFF; Z.land data_id 0xFF] w)) /\
   (forall key,
       security_access self 1 key w
       = lift_result seed_of_response (_send_uds self [0x27; 0x01] w)) /\
   (forall b k,
       security_access self 2 (Some (b :: k)) w
       = lift_result
           (fun response => SABool (match response with Some _ => true | None => false end))
           (_send_uds self ([0x27; 0x02] ++ ints_of_bytes (b :: k)) w)) /\
   (forall address length,
       read_memory_by_address self address length w
       = lift_result memory_of_response
           (_send_uds self
              [0x23; 0x44; 0x22;
               Z.land (Z.shiftr address 24) 0xFF; Z.land (Z.shiftr address 16) 0xFF;
               Z.land (Z.shiftr address 8) 0xFF; Z.land address 0xFF;
               Z.land (Z.shiftr length 8) 0xFF; Z.land length 0xFF] w))) /\
  (can_send w = false ->
   (fst (start_session self w) = Ok None /\ unpolled w (snd (start_session self w))) /\
   (forall data_id,
       fst (read_data_by_identifier self data_id w) = Ok None /\
       unpolled w (snd (read_data_by_identifier self data_id w))) /\
   (forall key,
       fst (security_access self 1 key w) = Ok SANone /\
       unpolled w (snd (security_access self 1 key w))) /\
   (forall b k,
       fst (security_access self 2 (Some (b :: k)) w) = Ok (SABool false) /\
       unpolled w (snd (security_access self 2 (Some (b :: k)) w))) /\
   (forall address length,
       fst (read_memory_by_address self address length w) = Ok None /\
       unpolled w (snd (read_memory_by_address self address length w)))) /\
  (can_send w = true ->
   forall data payload,
     bytes_of_ints data = Some payload ->
     let r := _send_uds self data w in
     (forall d, fst r = Ok (Some d) <-> frame_arrives self w d) /\
     (fst r = Ok None <-> forall d, ~ frame_arrives self w d) /\
     (fst r = Ok None -> 2000 <= now (snd r) - now w) /\
     exists pre,
       Forall (passed_over self) pre /\
       (rx_script w = pre ++ rx_script (snd r)
        \/ exists ev d,
             rx_script w = pre ++ ev :: rx_script (snd r) /\
             rx_frame ev = Some (rx_id self, d) /\
             fst r = Ok (Some d))).
Proof.
  split; [|split].
  - split; [reflexivity|].
    split; [intros; apply read_data_by_identifier_run|].
    split; [intros; apply security_access_seed_run|].
    split; intros; [apply security_access_key_run | apply read_memory_by_address_run].
  - intros Hcs.
    assert (Hgen : forall (B : Type) (f : option bytes -> B) data,
               Forall (fun z => 0 <= z < 256) data ->
               fst (lift_result f (_send_uds self data w)) = Ok (f None) /\
               unpolled w (snd (lift_result f (_send_uds self data w)))).
    { intros B f data Hdata.
      destruct (_send_uds_not_sent self data w Hdata Hcs) as (Hr & Hidle).
      split; [apply fst_lift_result; exact Hr|].
      rewrite snd_lift_result. exact Hidle. }
    split; [|split; [|split; [|split]]].
    + apply (_send_uds_not_sent self [0x10; 0x03] w); [repeat constructor; lia | exact Hcs].
    + intros data_id. rewrite read_data_by_identifier_run.
      apply (Hgen _ (data_of_response data_id)). apply read_data_request_bytes.
    + intros key. rewrite security_access_seed_run.
      apply (Hgen _ seed_of_response). repeat constructor; lia.
    + intros b k. rewrite security_access_key_run.
      apply (Hgen _ (fun response =>
                       SABool (match response with Some _ => true | None => false end))).
      unfold ints_of_bytes. repeat constructor; try lia; try apply byte_val_range.
      apply Forall_forall. intros z Hz. apply in_map_iff in Hz.
      destruct Hz as (x & <- & _). apply byte_val_range.
    + intros address length. rewrite read_memory_by_address_run.
      apply (Hgen _ memory_of_response). apply read_memory_request_bytes.
  - intros Hcs data payload Hb. cbv zeta.
    assert (Hiff : forall d, fst (_send_uds self data w) = Ok (Some d)
                             <-> frame_arrives self w d).
    { intros d. split.
      - intros H. apply (_send_uds_Some_iff self data payload w d Hb) in H. tauto.
      - intros H. apply (_send_uds_Some_iff self data payload w d Hb). tauto. }
    destruct (_send_uds_ok self data payload w Hb) as (response & Hr).
    destruct (_send_uds_outcome self data payload w Hb) as (_ & _ & _ & H).
    rewrite Hcs in H. destruct H as (pre & Hpre & H). rewrite Hr in H.
    split; [exact Hiff|]. split; [|split].
    + split.
      * intros Hnone d Harr. apply Hiff in Harr. congruence.
      * intros Hno. destruct response as [d|]; [|exact Hr].
        exfalso. apply (Hno d). apply Hiff. exact Hr.
    + intros Hnone. rewrite Hr in Hnone. inversion Hnone; subst response.
      destruct H as (_ & Hdead). exact Hdead.
    + exists pre. split; [exact Hpre|]. destruct response as [d|].
      * destruct H as (ev & Hsplit & Hfr & _). right. exists ev, d. auto.
      * destruct H as (Hsplit & _). left. exact Hsplit.
Qed.

(** A connected adapter that delivers a frame with another arbitration id
    and then the response to a session request. *)
Definition world_with_foreign_frame : World :=
  world_replying [(0x123, bytes_lit [0xFF]); (0x7E8, bytes_lit [0x50; 0x03])].

(** On that line the session request is sent, the foreign frame is passed
    over and the response behind it is resolved; on the line whose next
    write raises, level 2 of [security_access] returns [False]. *)
Lemma _send_uds_resolution_witness :
  (can_send world_with_foreign_frame = true /\
   bytes_of_ints [0x10; 0x03] = Some (bytes_lit [0x10; 0x03])) /\
  fst (_send_uds DSMProtocol_init [0x10; 0x03] world_with_foreign_frame)
  = Ok (Some (bytes_lit [0x50; 0x03])) /\
  (can_send world_write_fault = false /\
   fst (security_access DSMProtocol_init 2 (Some (bytes_lit [0xDE; 0xAD])) world_write_fault)
   = Ok (SABool false)).
Proof.
  split; [split; reflexivity|]. split.
  - destruct (_send_uds_resolution DSMProtocol_init world_with_foreign_frame)
      as (_ & _ & Hsent).
    destruct (Hsent eq_refl [0x10; 0x03] (bytes_lit [0x10; 0x03]) eq_refl) as (Hiff & _).
    apply Hiff.
    exists [mkRx 10 (Some (0x123, bytes_lit [0xFF]))],
           (mkRx 10 (Some (0x7E8, bytes_lit [0x50; 0x03]))), [].
    split; [reflexivity|]. split; [|split; [reflexivity|reflexivity]].
    constructor; [|constructor]. intros d. discriminate.
  - split; [reflexivity|].
    destruct (_send_uds_resolution DSMProtocol_init world_write_fault) as (_ & Hfail & _).
    destruct (Hfail eq_refl) as (_ & _ & _ & Hkey & _).
    exact (proj1 (Hkey xde [xad])).
Defined.

(** On that line the foreign frame is passed over and the response behind it
    is returned. *)
Example _send_uds_skips_foreign_frame :
  fst (_send_uds DSMProtocol_init [0x10; 0x03] world_with_foreign_frame)
  = Ok (Some (bytes_lit [0x50; 0x03])).
Proof. vm_compute. reflexivity. Qed.

(** ** Security access *)

(** C6, as the text has it, fails: the two-byte response [0x67, 0x01] has
    byte 0 equal to [0x67] and byte 1 equal to [0x01], and level 1 returns
    [None] on it, not the (empty) bytes from offset 2. *)
Lemma security_access_seed_short_response :
  exists resp,
    frame_arrives DSMProtocol_init (world_replying [(0x7E8, resp)]) resp /\
    byte_at resp 0 = Some 0x67 /\
    byte_at resp 1 = Some 0x01 /\
    fst (security_access DSMProtocol_init 1 None (world_replying [(0x7E8, resp)]))
    = Ok SANone /\
    fst (security_access DSMProtocol_init 1 None (world_replying [(0x7E8, resp)]))
    <> Ok (SASeed (skipn 2 resp)).
Proof.
  exists (bytes_lit [0x67; 0x01]). split.
  - exists [], (mkRx 10 (Some (0x7E8, bytes_lit [0x67; 0x01]))), [].
    repeat split; try reflexivity. constructor.
  - repeat split; try reflexivity. vm_compute. discriminate.
Qed.

(** C6, amended.  Level 1 writes a frame that carries exactly [0x27, 0x01].
    It returns the response from offset 2 as the seed exactly when the
    request was sent and the resolved response is longer than two bytes, with
    byte 0 equal to [0x67] and byte 1 equal to [0x01]; otherwise it returns
    [None].  On the response [0x67, 0x01, 0xAA, 0xBB] the seed is
    [0xAA, 0xBB]. *)
Theorem security_access_seed_spec (self : DSMProtocol) (key : option bytes) (w : World) :
  let got := security_access self 1 key w in
  (exists payload,
      map byte_val payload = [0x27; 0x01] /\
      serial_out (snd got)
      = serial_out w
        ++ (if can_send w then [OpenPortConnector.frame_line (tx_id self) payload] else [])) /\
  (forall seed,
      fst got = Ok (SASeed seed)
      <-> can_send w = true /\
          exists resp,
            frame_arrives self w resp /\ (2 < List.length resp)%nat /\
            byte_at resp 0 = Some 0x67 /\ byte_at resp 1 = Some 0x01 /\
            seed = skipn 2 resp) /\
  (fst got = Ok SANone \/ exists seed, fst got = Ok (SASeed seed)) /\
  fst (security_access DSMProtocol_init 1 key
         (world_replying [(0x7E8, bytes_lit [0x67; 0x01; 0xAA; 0xBB])]))
  = Ok (SASeed (bytes_lit [0xAA; 0xBB])).
Proof.
  cbv zeta. rewrite !security_access_seed_run, snd_lift_result.
  assert (Hp : bytes_of_ints [0x27; 0x01] = Some (bytes_lit [0x27; 0x01])) by reflexivity.
  destruct (_send_uds_ok self _ _ w Hp) as (response & Hr).
  rewrite (fst_lift_result _ _ _ Hr).
  split; [|split; [|split]].
  - exists (bytes_lit [0x27; 0x01]). split; [reflexivity|].
    apply (_send_uds_outcome self _ _ w Hp).
  - intros seed. split.
    + intros H. inversion H as [H']. apply seed_of_response_Seed in H'.
      destruct H' as (resp & -> & Hlen & H0 & H1 & ->).
      apply (_send_uds_Some_iff self _ _ w resp Hp) in Hr. destruct Hr as (Hcs & Harr).
      split; [assumption|]. exists resp. auto.
    + intros (Hcs & resp & Harr & Hlen & H0 & H1 & ->).
      assert (Hr' : fst (_send_uds self [0x27; 0x01] w) = Ok (Some resp))
        by (apply (_send_uds_Some_iff self _ _ w resp Hp); auto).
      rewrite Hr in Hr'. inversion Hr'; subst response.
      f_equal. apply seed_of_response_Seed. exists resp. auto.
  - destruct (seed_of_response_cases response) as [-> | (seed & ->)]; eauto.
  - vm_compute. reflexivity.
Qed.

(** C7, as the text has it, fails for the empty key: level 2 then writes
    nothing to the adapter and returns [None], not a boolean, although a
    response frame is waiting. *)
Lemma security_access_empty_key :
  frame_arrives DSMProtocol_init (world_replying [(0x7E8, bytes_lit [0x67; 0x02])])
                (bytes_lit [0x67; 0x02]) /\
  security_access DSMProtocol_init 2 (Some [])
    (world_replying [(0x7E8, bytes_lit [0x67; 0x02])])
  = (Ok SANone, world_replying [(0x7E8, bytes_lit [0x67; 0x02])]) /\
  serial_out (world_replying [(0x7E8, bytes_lit [0x67; 0x02])]) = [].
Proof.
  split; [|split; reflexivity].
  exists [], (mkRx 10 (Some (0x7E8, bytes_lit [0x67; 0x02]))), [].
  repeat split; try reflexivity. constructor.
Qed.

(** C7, amended.  For a key that is not empty, level 2 writes a frame that
    carries [0x27, 0x02] followed by the key and returns a boolean, which is
    true exactly when the request was sent and a frame with the receive id
    reached a poll begun before the deadline, whatever its payload.  For the
    empty key and for no key, on every line, level 2 returns [None] and
    leaves the line as it was: nothing is written, no reception is consumed
    and no time passes. *)
Theorem security_access_key_spec (self : DSMProtocol) (key : bytes) (w : World) :
  security_access self 2 None w = (Ok SANone, w) /\
  security_access self 2 (Some []) w = (Ok SANone, w) /\
  (key <> [] ->
   let got := security_access self 2 (Some key) w in
   (exists payload,
       map byte_val payload = [0x27; 0x02] ++ map byte_val key /\
       serial_out (snd got)
       = serial_out w
         ++ (if can_send w then [OpenPortConnector.frame_line (tx_id self) payload] else [])) /\
   exists accepted,
     fst got = Ok (SABool accepted) /\
     (accepted = true <-> can_send w = true /\ exists resp, frame_arrives self w resp)).
Proof.
  split; [reflexivity|]. split; [reflexivity|].
  intros Hkey. destruct key as [|b k]; [congruence|]. cbv zeta.
  rewrite security_access_key_run, snd_lift_result.
  destruct (key_request_bytes (b :: k)) as (p & Hp & Hval).
  destruct (_send_uds_ok self _ p w Hp) as (response & Hr).
  rewrite (fst_lift_result _ _ _ Hr).
  split.
  - exists p. split; [exact Hval|]. apply (_send_uds_outcome self _ p w Hp).
  - eexists. split; [reflexivity|]. split.
    + destruct response as [resp|]; [|discriminate]. intros _.
      apply (_send_uds_Some_iff self _ p w resp Hp) in Hr. destruct Hr as (Hcs & Harr).
      split; [assumption|]. exists resp. assumption.
    + intros (Hcs & resp & Harr).
      assert (Hr' : fst (_send_uds self ([0x27; 0x02] ++ ints_of_bytes (b :: k)) w)
                    = Ok (Some resp))
        by (apply (_send_uds_Some_iff self _ p w resp Hp); auto).
      rewrite Hr in Hr'. inversion Hr'. reflexivity.
Qed.

(** A key of two bytes answered by a frame with an empty payload; and no
    key on the same line. *)
Lemma security_access_key_spec_witness :
  bytes_lit [0xDE; 0xAD] <> [] /\
  (exists accepted,
    fst (security_access DSMProtocol_init 2 (Some (bytes_lit [0xDE; 0xAD]))
           (world_replying [(0x7E8, [])]))
    = Ok (SABool accepted) /\
    (accepted = true
     <-> can_send (world_replying [(0x7E8, [])]) = true /\
         exists resp, frame_arrives DSMProtocol_init (world_replying [(0x7E8, [])]) resp)) /\
  security_access DSMProtocol_init 2 None (world_replying [(0x7E8, [])])
  = (Ok SANone, world_replying [(0x7E8, [])]).
Proof.
  split; [discriminate|].
  destruct (security_access_key_spec DSMProtocol_init (bytes_lit [0xDE; 0xAD])
              (world_replying [(0x7E8, [])])) as (Hnone & _ & Hkey).
  split; [|exact Hnone].
  apply Hkey. discriminate.
Defined.

Example security_access_key_any_content :
  fst (security_access DSMProtocol_init 2 (Some (bytes_lit [0xDE; 0xAD]))
         (world_replying [(0x7E8, bytes_lit [0x7F; 0x27; 0x35])]))
  = Ok (SABool true).
Proof. vm_compute. reflexivity. Qed.

(** ** Size of the transmitted frames *)

(** The line is a frame of the client with a payload of at most 8 bytes. *)
Definition payload_fits (self : DSMProtocol) (line : string) : Prop :=
  exists payload,
    line = OpenPortConnector.frame_line (tx_id self) payload /\
    (List.length payload <= 8)%nat.

(** Going from [w] to [w'] wrote one frame of the client whose payload is
    the request [data], byte for byte, which makes [n] bytes and [2 * n]
    hexadecimal characters, when the send could succeed, and wrote nothing
    when it could not. *)
Definition transmits (self : DSMProtocol) (w w' : World) (data : list Z) (n : nat) : Prop :=
  exists payload,
    map byte_val payload = data /\
    List.length payload = n /\
    String.length (hex payload) = (2 * n)%nat /\
    serial_out w'
    = serial_out w
      ++ (if can_send w then [OpenPortConnector.frame_line (tx_id self) payload] else []).

Lemma _send_uds_transmits (self : DSMProtocol) (data : list Z) (w : World) :
  Forall (fun z => 0 <= z < 256) data ->
  transmits self w (snd (_send_uds self data w)) data (List.length data).
Proof.
  intros Hdata. destruct (bytes_of_ints_in_range data Hdata) as (p & Hp & Hval).
  assert (Hlen : List.length p = List.length data)
    by (rewrite <- Hval; symmetry; apply length_map).
  exists p. split; [exact Hval|]. split; [exact Hlen|]. split.
  - rewrite hex_length, Hlen. reflexivity.
  - apply (_send_uds_outcome self data p w Hp).
Qed.

(** C3, as the text has it, fails: the frame that [read_memory_by_address]
    writes has a payload of nine bytes. *)
Lemma read_memory_by_address_frame_too_long :
  exists line,
    serial_out (snd (read_memory_by_address DSMProtocol_init 0x12345678 0x0100
                       (world_replying [])))
    = [line] /\
    String.length line = 23%nat /\
    ~ payload_fits DSMProtocol_init line.
Proof.
  eexists. split; [vm_compute; reflexivity|]. split; [reflexivity|].
  intros (payload & Hline & Hlen).
  apply (f_equal String.length) in Hline.
  rewrite frame_line_length in Hline.
  change (String.length (format_03X (tx_id DSMProtocol_init))) with 3%nat in Hline.
  cbn [String.length] in Hline. lia.
Qed.

(** C3, amended.  Each operation writes at most one frame, which carries its
    request bytes unchanged, two hexadecimal characters a byte: [0x10, 0x03]
    for [start_session]; [0x27, 0x01] for level 1 of [security_access];
    [0x22] and the two bytes of the identifier for
    [read_data_by_identifier]; [0x27, 0x02] and the key, of whatever length,
    for level 2 of [security_access]; and nine bytes for
    [read_memory_by_address], [0x23, 0x44, 0x22], the four bytes of the
    address and the two of the length.  [send_can_frame] writes a payload of
    any length as it is. *)
Theorem transmitted_frame_sizes (self : DSMProtocol) (w : World) :
  transmits self w (snd (start_session self w)) [0x10; 0x03] 2 /\
  (forall data_id,
      transmits self w (snd (read_data_by_identifier self data_id w))
                [0x22; Z.land (Z.shiftr data_id 8) 0xFF; Z.land data_id 0xFF] 3) /\
  (forall key, transmits self w (snd (security_access self 1 key w)) [0x27; 0x01] 2) /\
  (forall b k,
      transmits self w (snd (security_access self 2 (Some (b :: k)) w))
                ([0x27; 0x02] ++ map byte_val (b :: k))
                (2 + List.length (b :: k))) /\
  (forall address length,
      transmits self w (snd (read_memory_by_address self address length w))
                [0x23; 0x44; 0x22;
                 Z.land (Z.shiftr address 24) 0xFF; Z.land (Z.shiftr address 16) 0xFF;
                 Z.land (Z.shiftr address 8) 0xFF; Z.land address 0xFF;
                 Z.land (Z.shiftr length 8) 0xFF; Z.land length 0xFF] 9) /\
  (forall can_id payload,
      serial_out (snd (OpenPortConnector.send_can_frame can_id payload w))
      = serial_out w
        ++ (if can_send w then [OpenPortConnector.frame_line can_id payload] else []) /\
      String.length (OpenPortConnector.frame_line can_id payload)
      = (1 + String.length (format_03X can_id) + 2 * List.length payload + 1)%nat).
Proof.
  split; [|split; [|split; [|split; [|split]]]].
  - apply (_send_uds_transmits self [0x10; 0x03]). repeat constructor; lia.
  - intros data_id. rewrite read_data_by_identifier_run, snd_lift_result.
    apply (_send_uds_transmits self _ w (read_data_request_bytes data_id)).
  - intros key. rewrite security_access_seed_run, snd_lift_result.
    apply (_send_uds_transmits self [0x27; 0x01]). repeat constructor; lia.
  - intros b k. rewrite security_access_key_run, snd_lift_result.
    replace (2 + List.length (b :: k))%nat
      with (List.length ([0x27; 0x02] ++ ints_of_bytes (b :: k))).
    + apply (_send_uds_transmits self ([0x27; 0x02] ++ ints_of_bytes (b :: k))).
      unfold ints_of_bytes.
      repeat constructor; try lia; try apply byte_val_range.
      apply Forall_forall. intros z Hz. apply in_map_iff in Hz.
      destruct Hz as (x & <- & _). apply byte_val_range.
    + unfold ints_of_bytes. rewrite length_app, length_map. reflexivity.
  - intros address length. rewrite read_memory_by_address_run, snd_lift_result.
    apply (_send_uds_transmits self _ w (read_memory_request_bytes address length)).
  - intros can_id payload. split.
    + apply (send_can_frame_spec can_id payload w).
    + apply frame_line_length.
Qed.

(** ** Totality of the validation *)

Lemma security_access_ok (self : DSMProtocol) (level : Z) (key : option bytes) (w : World) :
  exists v, fst (security_access self level key w) = Ok v.
Proof.
  destruct (level =? 1) eqn:E1.
  - apply Z.eqb_eq in E1. subst level. rewrite security_access_seed_run.
    destruct (_send_uds_ok self [0x27; 0x01] _ w eq_refl) as (response & Hr).
    eexists. apply fst_lift_result. exact Hr.
  - destruct (level =? 2) eqn:E2.
    + apply Z.eqb_eq in E2. subst level.
      destruct key as [[|b k]|]; try (eexists; reflexivity).
      rewrite security_access_key_run.
      destruct (key_request_bytes (b :: k)) as (p & Hp & _).
      destruct (_send_uds_ok self _ p w Hp) as (response & Hr).
      eexists. apply fst_lift_result. exact Hr.
    + unfold security_access. rewrite E1, E2. eexists. reflexivity.
Qed.

Lemma read_memory_by_address_ok (self : DSMProtocol) (address length : Z) (w : World) :
  exists v, fst (read_memory_by_address self address length w) = Ok v.
Proof.
  rewrite read_memory_by_address_run.
  destruct (bytes_of_ints_in_range _ (read_memory_request_bytes address length))
    as (p & Hp & _).
  destruct (_send_uds_ok self _ p w Hp) as (response & Hr).
  eexists. apply fst_lift_result. exact Hr.
Qed.

(** C10. Whatever payload the request/response loop hands back, the empty
    one and the ones shorter than the offsets read included, the validation
    of each operation raises nothing, so no byte is read past the end; on a
    payload of at most two bytes [read_data_by_identifier] and level 1 of
    [security_access] return [None], and so does [read_memory_by_address] on
    the empty payload. *)
Theorem response_validation_total (self : DSMProtocol) (resp : bytes) (w : World) :
  can_send w = true ->
  frame_arrives self w resp ->
  (forall data_id,
      (exists v, fst (read_data_by_identifier self data_id w) = Ok v) /\
      ((List.length resp <= 2)%nat ->
       fst (read_data_by_identifier self data_id w) = Ok None)) /\
  (forall level key,
      (exists v, fst (security_access self level key w) = Ok v) /\
      ((List.length resp <= 2)%nat ->
       fst (security_access self 1 key w) = Ok SANone)) /\
  (forall address length,
      (exists v, fst (read_memory_by_address self address length w) = Ok v) /\
      (resp = [] -> fst (read_memory_by_address self address length w) = Ok None)).
Proof.
  intros Hcs Harr.
  assert (Hres : forall data p,
             bytes_of_ints data = Some p -> fst (_send_uds self data w) = Ok (Some resp))
    by (intros data p Hp; apply (_send_uds_Some_iff self data p w resp Hp); auto).
  split; [|split].
  - intros data_id. split; [apply read_data_by_identifier_ok|].
    intros Hlen. rewrite read_data_by_identifier_run.
    destruct (bytes_of_ints_in_range _ (read_data_request_bytes data_id)) as (p & Hp & _).
    rewrite (fst_lift_result _ _ _ (Hres _ p Hp)).
    destruct resp as [|b0 [|b1 [|b2 tail]]]; try reflexivity.
    cbn [List.length] in Hlen. lia.
  - intros level key. split; [apply security_access_ok|].
    intros Hlen. rewrite security_access_seed_run.
    rewrite (fst_lift_result _ _ _ (Hres [0x27; 0x01] _ eq_refl)).
    destruct resp as [|b0 [|b1 [|b2 tail]]]; try reflexivity.
    cbn [List.length] in Hlen. lia.
  - intros address length. split; [apply read_memory_by_address_ok|].
    intros ->. rewrite read_memory_by_address_run.
    destruct (bytes_of_ints_in_range _ (read_memory_request_bytes address length))
      as (p & Hp & _).
    rewrite (fst_lift_result _ _ _ (Hres _ p Hp)). reflexivity.
Qed.

Lemma world_replying_arrives (self : DSMProtocol) (resp : bytes) :
  frame_arrives self (world_replying [(rx_id self, resp)]) resp.
Proof.
  exists [], (mkRx 10 (Some (rx_id self, resp))), [].
  repeat split; try reflexivity. constructor.
Qed.

(** The empty payload answers each of the three operations. *)
Lemma response_validation_total_witness :
  (can_send (world_replying [(0x7E8, [])]) = true /\
   frame_arrives DSMProtocol_init (world_replying [(0x7E8, [])]) []) /\
  fst (read_data_by_identifier DSMProtocol_init 0xF190 (world_replying [(0x7E8, [])]))
  = Ok None /\
  fst (security_access DSMProtocol_init 1 None (world_replying [(0x7E8, [])])) = Ok SANone /\
  fst (read_memory_by_address DSMProtocol_init 0 16 (world_replying [(0x7E8, [])])) = Ok None.
Proof.
  pose proof (response_validation_total DSMProtocol_init [] (world_replying [(0x7E8, [])])
                eq_refl (world_replying_arrives DSMProtocol_init []))
    as (Hdata & Hseed & Hmem).
  split; [split; [reflexivity | apply (world_replying_arrives DSMProtocol_init [])]|].
  split; [|split].
  - apply (proj2 (Hdata 0xF190)). cbn. lia.
  - apply (proj2 (Hseed 1 None)). cbn. lia.
  - apply (proj2 (Hmem 0 16)). reflexivity.
Defined.

(** ** The segment scan *)

Lemma _send_uds_loop_write_faults (fuel : nat) (self : DSMProtocol) (start : Z) :
  forall (w : World) (r : option bytes * World),
    _send_uds_loop fuel self start w = Some r -> write_faults (snd r) = write_faults w.
Proof.
  induction fuel as [|fuel IH]; intros w r Hrun; [discriminate|].
  cbn [_send_uds_loop] in Hrun.
  destruct (now w - start <? 2000); [|inversion Hrun; reflexivity].
  unfold OpenPortConnector.receive_can_frame in Hrun.
  destruct (negb (is_connected w)); [|change (100 <=? 0) with false in Hrun; cbv iota in Hrun;
                                      destruct (rx_script w) as [|ev rest]].
  - apply IH in Hrun. exact Hrun.
  - apply IH in Hrun. exact Hrun.
  - destruct (rx_frame ev) as [[resp_id resp_data]|].
    + destruct (resp_id =? rx_id self); [inversion Hrun; reflexivity|].
      apply IH in Hrun. exact Hrun.
    + apply IH in Hrun. exact Hrun.
Qed.

(** A connected line on which no write fails. *)
Definition healthy (w : World) : Prop :=
  is_connected w = true /\ write_faults w = [].

Lemma healthy_can_send (w : World) : healthy w -> can_send w = true.
Proof.
  intros (Hc & Hf). unfold can_send. rewrite Hc, Hf. reflexivity.
Qed.

Lemma _send_uds_healthy (self : DSMProtocol) (data : list Z) (w : World) :
  healthy w -> healthy (snd (_send_uds self data w)).
Proof.
  intros (Hc & Hf). unfold _send_uds.
  destruct (bytes_of_ints data) as [payload|]; [|split; assumption].
  unfold OpenPortConnector.send_can_frame, OpenPortConnector.serial_write.
  rewrite Hc, Hf. cbn [negb].
  set (w1 := set_serial_out _ w).
  destruct (_send_uds_loop (poll_fuel w1) self (now w1) w1) as [[response w2]|] eqn:Hrun;
    [|split; assumption].
  assert (Hc1 : is_connected w1 = true) by exact Hc.
  cbn [snd]. split.
  - destruct (_send_uds_loop_sound _ _ _ _ _ _ Hc1 Hrun) as (_ & _ & _ & Hc2 & _).
    exact Hc2.
  - apply _send_uds_loop_write_faults in Hrun. cbn [snd] in Hrun. rewrite Hrun. exact Hf.
Qed.

(** The frame that asks for one identifier. *)
Definition request_line (self : DSMProtocol) (data_id : Z) : string :=
  OpenPortConnector.frame_line (tx_id self)
    (bytes_lit [0x22; Z.land (Z.shiftr data_id 8) 0xFF; Z.land data_id 0xFF]).

Lemma bytes_lit_Some (data : list Z) :
  Forall (fun z => 0 <= z < 256) data -> bytes_of_ints data = Some (bytes_lit data).
Proof.
  intros H. destruct (bytes_of_ints_in_range data H) as (p & Hp & _).
  unfold bytes_lit. rewrite Hp. reflexivity.
Qed.

Lemma read_data_by_identifier_healthy (self : DSMProtocol) (data_id : Z) (w : World) :
  healthy w ->
  healthy (snd (read_data_by_identifier self data_id w)) /\
  serial_out (snd (read_data_by_identifier self data_id w))
  = serial_out w ++ [request_line self data_id].
Proof.
  intros Hw. rewrite read_data_by_identifier_run, snd_lift_result. split.
  - apply _send_uds_healthy. exact Hw.
  - pose proof (bytes_lit_Some _ (read_data_request_bytes data_id)) as Hp.
    destruct (_send_uds_outcome self _ _ w Hp) as (Hout & _).
    rewrite Hout, (healthy_can_send w Hw). reflexivity.
Qed.

(** The queries of a scan over [ids] in the order they are made: each
    identifier with what [read_data_by_identifier] returned for it. *)
Fixpoint scan_queries (self : DSMProtocol) (ids : list Z) (w : World)
  : list (Z * result (option bytes)) :=
  match ids with
  | [] => []
  | seg_id :: rest =>
      let r := read_data_by_identifier self seg_id w in
      (seg_id, fst r) :: scan_queries self rest (sleep 20 (snd r))
  end.

(** The segment a query contributes: its data when there is some. *)
Definition found (q : Z * result (option bytes)) : list (Z * bytes) :=
  match snd q with
  | Ok (Some (b :: d)) => [(fst q, b :: d)]
  | _ => []
  end.

Lemma scan_queries_ids (self : DSMProtocol) (ids : list Z) :
  forall w, map fst (scan_queries self ids w) = ids.
Proof.
  induction ids as [|seg_id rest IH]; intros w; cbn [scan_queries map fst];
    [reflexivity|]. now rewrite IH.
Qed.

Lemma scan_loop_run (self : DSMProtocol) (ids : list Z) :
  forall (segments : list (Z * bytes)) (w : World),
    fst (scan_loop self ids segments w)
    = Ok (segments ++ flat_map found (scan_queries self ids w)).
Proof.
  induction ids as [|seg_id rest IH]; intros segments w; cbn [scan_loop scan_queries flat_map].
  - unfold ret. cbn [fst]. now rewrite app_nil_r.
  - unfold bind at 1.
    destruct (read_data_by_identifier_ok self seg_id w) as (data & Hdata).
    destruct (read_data_by_identifier self seg_id w) as [r w1]. cbn [fst snd] in *.
    subst r. unfold bind at 1. rewrite IH. unfold found at 1. cbn [fst snd].
    destruct data as [[|b d]|]; cbn [truthy andb]; rewrite ?app_nil_r; try reflexivity.
    replace (0 <? Z.of_nat (List.length (b :: d))) with true
      by (symmetry; apply Z.ltb_lt; cbn [List.length]; lia).
    now rewrite <- app_assoc.
Qed.

Lemma scan_loop_serial_out (self : DSMProtocol) (ids : list Z) :
  forall (segments : list (Z * bytes)) (w : World),
    healthy w ->
    serial_out (snd (scan_loop self ids segments w))
    = serial_out w ++ map (request_line self) ids.
Proof.
  induction ids as [|seg_id rest IH]; intros segments w Hw; cbn [scan_loop map].
  - unfold ret. cbn [snd]. now rewrite app_nil_r.
  - unfold bind at 1.
    destruct (read_data_by_identifier_healthy self seg_id w Hw) as (Hw1 & Hout).
    destruct (read_data_by_identifier_ok self seg_id w) as (data & Hdata).
    destruct (read_data_by_identifier self seg_id w) as [r w1]. cbn [fst snd] in *.
    subst r. unfold bind at 1. rewrite IH.
    + world_simpl. rewrite Hout, <- app_assoc. reflexivity.
    + destruct Hw1 as (Hc & Hf). split; assumption.
Qed.

(** The items of a range with a positive step. *)

Lemma range_positive_step (start stop step : Z) :
  0 < step ->
  exists ids,
    range start stop step = Ok ids /\
    (forall x, In x ids <-> exists k, 0 <= k /\ x = start + k * step /\ x < stop) /\
    StronglySorted Z.lt ids.
Proof.
  intros Hstep. unfold range.
  replace (step =? 0) with false by (symmetry; apply Z.eqb_neq; lia).
  eexists. split; [reflexivity|].
  unfold range_len. replace (0 <? step) with true by (symmetry; apply Z.ltb_lt; lia).
  set (q := (stop - start + step - 1) / step).
  assert (Hq1 : step * q <= stop - start + step - 1) by (apply Z.mul_div_le; lia).
  assert (Hq2 : stop - start + step - 1 < step * (q + 1)).
  { pose proof (Z.mod_pos_bound (stop - start + step - 1) step Hstep) as Hm.
    pose proof (Z.div_mod (stop - start + step - 1) step ltac:(lia)) as Hd.
    fold q in Hd. lia. }
  split.
  - intros x. rewrite in_map_iff. split.
    + intros (i & <- & Hi). apply in_seq in Hi.
      exists (Z.of_nat i). split; [lia|]. split; [reflexivity|]. nia.
    + intros (k & Hk & -> & Hlt).
      exists (Z.to_nat k). split; [now rewrite Z2Nat.id by lia|].
      apply in_seq. nia.
  - generalize (Z.to_nat (Z.max 0 q)) as n. generalize 0%nat as a.
    intros a n. revert a. induction n as [|n IH]; intros a; cbn [seq map]; constructor.
    + apply IH.
    + apply Forall_forall. intros x Hx. apply in_map_iff in Hx.
      destruct Hx as (i & <- & Hi). apply in_seq in Hi. nia.
Qed.

(** C8. For a positive step the scan queries [read_data_by_identifier] for
    the identifiers [start_id + k * step] that do not exceed [end_id], each
    once, in ascending order, and, on a connected line whose writes succeed,
    writes exactly their request frames, in that order.  No query aborts the
    scan: the list returned holds, in the order of the queries, the pair of
    the identifier and the data for the queries whose data is not empty, and
    nothing for the others. *)
Theorem scan_eeprom_segments_spec (self : DSMProtocol) (start_id end_id step : Z)
        (w : World) :
  0 < step ->
  exists ids,
    range start_id (end_id + 1) step = Ok ids /\
    (forall x, In x ids <-> exists k, 0 <= k /\ x = start_id + k * step /\ x <= end_id) /\
    StronglySorted Z.lt ids /\
    map fst (scan_queries self ids w) = ids /\
    fst (scan_eeprom_segments self start_id end_id step w)
    = Ok (flat_map found (scan_queries self ids w)) /\
    (healthy w ->
     serial_out (snd (scan_eeprom_segments self start_id end_id step w))
     = serial_out w ++ map (request_line self) ids).
Proof.
  intros Hstep.
  destruct (range_positive_step start_id (end_id + 1) step Hstep)
    as (ids & Hrange & Hin & Hsorted).
  exists ids. split; [exact Hrange|]. split; [|split; [exact Hsorted|split; [|split]]].
  - intros x. rewrite Hin. split; intros (k & Hk & Hx & Hle); exists k; repeat split; lia.
  - apply scan_queries_ids.
  - unfold scan_eeprom_segments. rewrite Hrange. apply scan_loop_run.
  - intros Hw. unfold scan_eeprom_segments. rewrite Hrange.
    apply scan_loop_serial_out. exact Hw.
Qed.

(** A line on which only the first of the queried identifiers answers. *)
Definition world_one_segment : World :=
  world_replying [(0x7E8, bytes_lit [0x62; 0xF1; 0x00; 0x01; 0x02])].

(** The scan of [0xF100, 0xF120] with step [0x10] makes three queries, for
    [0xF100], [0xF110] and [0xF120], and writes three frames. *)
Lemma scan_eeprom_segments_spec_witness :
  0 < 0x10 /\
  exists ids,
    ids = [0xF100; 0xF110; 0xF120] /\
    map fst (scan_queries DSMProtocol_init ids world_one_segment) = ids /\
    List.length (scan_queries DSMProtocol_init ids world_one_segment) = 3%nat /\
    fst (scan_eeprom_segments DSMProtocol_init 0xF100 0xF120 0x10 world_one_segment)
    = Ok (flat_map found (scan_queries DSMProtocol_init ids world_one_segment)) /\
    serial_out (snd (scan_eeprom_segments DSMProtocol_init 0xF100 0xF120 0x10
                       world_one_segment))
    = map (request_line DSMProtocol_init) ids.
Proof.
  split; [lia|].
  destruct (scan_eeprom_segments_spec DSMProtocol_init 0xF100 0xF120 0x10 world_one_segment)
    as (ids & Hrange & _ & _ & Hids & Hres & Hout); [lia|].
  exists ids.
  assert (Hlist : ids = [0xF100; 0xF110; 0xF120])
    by (vm_compute in Hrange; inversion Hrange; reflexivity).
  split; [exact Hlist|]. split; [exact Hids|]. split; [|split; [exact Hres|]].
  - rewrite <- (length_map fst), Hids, Hlist. reflexivity.
  - apply Hout. split; reflexivity.
Defined.

Example scan_eeprom_segments_example :
  fst (scan_eeprom_segments DSMProtocol_init 0xF100 0xF120 0x10 world_one_segment)
  = Ok [(0xF100, bytes_lit [0x01; 0x02])].
Proof. vm_compute. reflexivity. Qed.

(** ** The stop flag *)

(** Running [m] with the stop flag set to [b] gives the result of running it
    with the flag as it was, and leaves the line in the same state, but for
    the flag. *)
Definition flag_blind {A} (m : World -> A * World) : Prop :=
  forall (b : bool) (w : World),
    m (set_scanning b w) = (fst (m w), set_scanning b (snd (m w))).

Lemma send_can_frame_flag_blind (can_id : Z) (p : bytes) :
  flag_blind (OpenPortConnector.send_can_frame can_id p).
Proof.
  intros b [c t out faults rx s].
  unfold OpenPortConnector.send_can_frame, OpenPortConnector.serial_write. world_simpl.
  destruct c; cbn [negb]; [|reflexivity].
  destruct faults as [|[|] rest]; reflexivity.
Qed.

Lemma receive_can_frame_flag_blind (timeout : Z) :
  flag_blind (OpenPortConnector.receive_can_frame timeout).
Proof.
  intros b [c t out faults rx s].
  unfold OpenPortConnector.receive_can_frame. world_simpl.
  destruct c; cbn [negb]; [|reflexivity].
  destruct (timeout <=? 0); [reflexivity|].
  destruct rx as [|ev rest]; reflexivity.
Qed.

Lemma _send_uds_loop_flag_blind (fuel : nat) (self : DSMProtocol) (start : Z) :
  forall (b : bool) (w : World),
    _send_uds_loop fuel self start (set_scanning b w)
    = option_map (fun r => (fst r, set_scanning b (snd r)))
                 (_send_uds_loop fuel self start w).
Proof.
  induction fuel as [|fuel IH]; intros b w; [reflexivity|].
  cbn [_send_uds_loop]. rewrite receive_can_frame_flag_blind.
  change (now (set_scanning b w)) with (now w).
  destruct (now w - start <? 2000); [|reflexivity].
  destruct (OpenPortConnector.receive_can_frame 100 w) as [[[resp_id resp_data]|] w1];
    cbn [fst snd].
  - destruct (resp_id =? rx_id self); [reflexivity | apply IH].
  - apply IH.
Qed.

Lemma _send_uds_flag_blind (self : DSMProtocol) (data : list Z) :
  flag_blind (_send_uds self data).
Proof.
  intros b w. unfold _send_uds.
  destruct (bytes_of_ints data) as [payload|]; [|reflexivity].
  rewrite send_can_frame_flag_blind.
  destruct (OpenPortConnector.send_can_frame (tx_id self) payload w) as [[|] w1];
    cbn [fst snd]; [|reflexivity].
  change (now (set_scanning b w1)) with (now w1).
  change (poll_fuel (set_scanning b w1)) with (poll_fuel w1).
  rewrite _send_uds_loop_flag_blind.
  destruct (_send_uds_loop (poll_fuel w1) self (now w1) w1) as [[response w2]|];
    reflexivity.
Qed.

Lemma read_data_by_identifier_flag_blind (self : DSMProtocol) (data_id : Z) :
  flag_blind (read_data_by_identifier self data_id).
Proof.
  intros b w. rewrite !read_data_by_identifier_run, _send_uds_flag_blind.
  destruct (_send_uds self _ w) as [[response|e] w1]; reflexivity.
Qed.

Lemma scan_loop_flag_blind (self : DSMProtocol) (ids : list Z) :
  forall segments, flag_blind (scan_loop self ids segments).
Proof.
  induction ids as [|seg_id rest IH]; intros segments b w; [reflexivity|].
  cbn [scan_loop]. unfold bind at 1 3 5.
  rewrite read_data_by_identifier_flag_blind.
  destruct (read_data_by_identifier self seg_id w) as [[data|e] w1]; cbn [fst snd];
    [|reflexivity].
  unfold bind at 1 2 3. cbn [fst snd].
  change (sleep 20 (set_scanning b w1)) with (set_scanning b (sleep 20 w1)).
  apply IH.
Qed.

(** ** The scan loop of the user interface *)

Ltac gui_simpl :=
  cbn [gui_line serial_conn reads stop_clicks dump_data
       set_gui_line set_reads set_stop_clicks set_dump_data stop_scan] in *.

(** The identifiers of [range(0xF100, 0xF110)]. *)
Definition gui_ids : list Z :=
  [0xF100; 0xF101; 0xF102; 0xF103; 0xF104; 0xF105; 0xF106; 0xF107;
   0xF108; 0xF109; 0xF10A; 0xF10B; 0xF10C; 0xF10D; 0xF10E; 0xF10F].

(** The line [read_dsm_segment] writes for a segment. *)
Definition segment_query (segment_id : Z) : string :=
  OpenPortConnector.frame_line 0x7E0
    (bytes_lit [0x22; Z.land (Z.shiftr segment_id 8) 0xFF; Z.land segment_id 0xFF]).

(** Of the next [k] looks at the flag, the number that find it set before
    the first that finds it cleared. *)
Fixpoint live_turns (flag : bool) (clicks : list bool) (k : nat) : nat :=
  match k with
  | O => O
  | S k' =>
      if flag && negb (hd false clicks) then S (live_turns true (tl clicks) k') else O
  end.

(** No read of the port returns bytes. *)
Definition silent (rs : list PortRead) : Prop :=
  Forall (fun r => match read_bytes r with Some (_ :: _) => False | _ => True end) rs.

Lemma hear_stop_spec (g : Gui) :
  scanning (gui_line (hear_stop g))
  = scanning (gui_line g) && negb (hd false (stop_clicks g)) /\
  stop_clicks (hear_stop g) = tl (stop_clicks g) /\
  serial_conn (hear_stop g) = serial_conn g /\
  reads (hear_stop g) = reads g /\
  write_faults (gui_line (hear_stop g)) = write_faults (gui_line g) /\
  serial_out (gui_line (hear_stop g)) = serial_out (gui_line g).
Proof.
  unfold hear_stop. destruct g as [w h rs clicks d]. gui_simpl.
  destruct clicks as [|[|] rest]; gui_simpl; world_simpl; cbn [hd tl negb];
    rewrite ?andb_true_r, ?andb_false_r; repeat split; reflexivity.
Qed.

(** A query on an open port whose writes succeed: the line of the segment is
    written in full, the flag and the clicks are left alone, and data is
    found exactly when the read returns bytes. *)
Lemma read_dsm_segment_open (segment_id : Z) (g : Gui) :
  serial_conn g = SerialOpen ->
  write_faults (gui_line g) = [] ->
  let r := read_dsm_segment segment_id g in
  serial_out (gui_line (snd r)) = serial_out (gui_line g) ++ [segment_query segment_id] /\
  scanning (gui_line (snd r)) = scanning (gui_line g) /\
  stop_clicks (snd r) = stop_clicks g /\
  serial_conn (snd r) = SerialOpen /\
  write_faults (gui_line (snd r)) = [] /\
  reads (snd r) = tl (reads g) /\
  ((exists b d, fst r = Ok (Some (b :: d))) \/ fst r = Ok None) /\
  (silent (reads g) -> fst r = Ok None).
Proof.
  intros Hopen Hwf. unfold read_dsm_segment, segment_query.
  rewrite (bytes_lit_Some _ (read_data_request_bytes segment_id)).
  rewrite Hopen. unfold OpenPortConnector.serial_write. rewrite Hwf.
  destruct g as [w h rs clicks d]. gui_simpl. subst h.
  destruct w as [con t out wf rx flag]. world_simpl. subst wf.
  destruct rs as [|r rs]; cbn [fst snd tl]; gui_simpl; world_simpl.
  - repeat split; auto.
  - destruct (read_bytes r) as [[|b bs]|] eqn:Er; cbn [fst snd];
      gui_simpl; world_simpl; repeat split; auto.
    + left. eexists _, _. reflexivity.
    + intros Hs. inversion Hs as [|? ? Hr _]; subst. rewrite Er in Hr. contradiction.
Qed.

Lemma scan_dsm_loop_queries (ids : list Z) :
  forall (segments : list (Z * bytes)) (total_bytes : Z) (g : Gui),
    serial_conn g = SerialOpen ->
    write_faults (gui_line g) = [] ->
    exists n,
      (n <= live_turns (scanning (gui_line g)) (stop_clicks g) (List.length ids))%nat /\
      serial_out (gui_line (snd (scan_dsm_loop ids segments total_bytes g)))
      = serial_out (gui_line g) ++ map segment_query (firstn n ids) /\
      (silent (reads g) ->
       n = live_turns (scanning (gui_line g)) (stop_clicks g) (List.length ids)).
Proof.
  induction ids as [|seg_id rest IH]; intros segments total_bytes g Hopen Hwf.
  - exists 0%nat. cbn [scan_dsm_loop snd firstn map List.length live_turns].
    rewrite app_nil_r. repeat split; auto.
  - cbn [scan_dsm_loop List.length live_turns].
    destruct (hear_stop_spec g) as (Hflag & Hclicks & Hconn & Hreads & Hwf0 & Hout0).
    rewrite <- Hflag.
    destruct (scanning (gui_line (hear_stop g))) eqn:Hlive; cbn [negb].
    + assert (Hopen0 : serial_conn (hear_stop g) = SerialOpen) by congruence.
      assert (Hwf0' : write_faults (gui_line (hear_stop g)) = []) by congruence.
      destruct (read_dsm_segment_open seg_id (hear_stop g) Hopen0 Hwf0')
        as (Hout & Hflag1 & Hclicks1 & Hopen1 & Hwf1 & Hreads1 & Hres & Hsilent).
      destruct (read_dsm_segment seg_id (hear_stop g)) as [res g1]. cbn [fst snd] in *.
      destruct Hres as [(b & d & ->) | ->].
      * exists 1%nat. cbn [snd firstn map]. split; [lia|]. split; [congruence|].
        intros Hs. rewrite <- Hreads in Hs. specialize (Hsilent Hs). discriminate.
      * destruct (IH segments total_bytes (set_gui_line (sleep 100 (gui_line g1)) g1))
          as (n & Hn & Houtn & Heq).
        { gui_simpl. exact Hopen1. }
        { gui_simpl. destruct (gui_line g1). world_simpl. exact Hwf1. }
        exists (S n).
        assert (Hf : scanning (gui_line (set_gui_line (sleep 100 (gui_line g1)) g1)) = true).
        { gui_simpl. destruct (gui_line g1). world_simpl. congruence. }
        assert (Hc : stop_clicks (set_gui_line (sleep 100 (gui_line g1)) g1)
                     = tl (stop_clicks g)).
        { gui_simpl. congruence. }
        rewrite Hf, Hc in Hn, Heq.
        split; [lia|]. split.
        -- rewrite Houtn. cbn [firstn map].
           replace (serial_out (gui_line (set_gui_line (sleep 100 (gui_line g1)) g1)))
             with (serial_out (gui_line g1))
             by (gui_simpl; destruct (gui_line g1); reflexivity).
           rewrite Hout, Hout0, <- app_assoc. reflexivity.
        -- intros Hs. f_equal. apply Heq. gui_simpl. rewrite Hreads1, Hreads.
           destruct (reads g) as [|r rs]; [constructor|].
           inversion Hs; assumption.
    + exists 0%nat. cbn [snd firstn map]. rewrite app_nil_r.
      repeat split; auto; congruence.
Qed.

(** The window on an open port whose writes succeed, with nothing to read. *)
Definition gui_on (w : World) (clicks : list bool) : Gui :=
  mkGui (set_write_faults [] w) SerialOpen [] clicks None.

(** C9, as the text has it, fails for [scan_eeprom_segments]: the stop flag
    has no influence on what it queries, returns or writes, and with the
    flag cleared before it starts the scan of [0xF100, 0xF120] with step
    [0x10] still makes its three queries, where the scan loop of the window,
    started on the same line, makes none. *)
Lemma scan_eeprom_segments_ignores_stop_flag :
  (forall self start_id end_id step,
      flag_blind (scan_eeprom_segments self start_id end_id step)) /\
  scanning (set_scanning false world_one_segment) = false /\
  serial_out (snd (scan_eeprom_segments DSMProtocol_init 0xF100 0xF120 0x10
                     (set_scanning false world_one_segment)))
  = map (request_line DSMProtocol_init) [0xF100; 0xF110; 0xF120] /\
  serial_out (gui_line (scan_dsm_thread
                          (gui_on (set_scanning false world_one_segment) [])))
  = [].
Proof.
  split; [|split; [reflexivity | split; vm_compute; reflexivity]].
  intros self start_id end_id step b w. unfold scan_eeprom_segments.
  destruct (range start_id (end_id + 1) step) as [ids|e]; [|reflexivity].
  apply scan_loop_flag_blind.
Qed.

(** C9, amended.  [scan_eeprom_segments] cannot be interrupted: for a
    positive step, on a connected line whose writes succeed, it writes the
    query of every identifier of its range, whatever the stop flag is.  The
    scan that can be interrupted is the loop of the window,
    [scan_dsm_thread]: on an open port whose writes succeed it writes the
    queries of the first [n] of its sixteen identifiers, each in full, where
    [n] is at most the number of looks at the flag that found it set before
    the first that found it cleared, and exactly that number when no segment
    has data; so once the flag is cleared no further query is begun.  The
    loop leaves the flag cleared. *)
Theorem scan_interruption :
  (forall self start_id end_id step w,
      0 < step ->
      healthy w ->
      exists ids,
        range start_id (end_id + 1) step = Ok ids /\
        forall flag,
          serial_out (snd (scan_eeprom_segments self start_id end_id step
                             (set_scanning flag w)))
          = serial_out w ++ map (request_line self) ids) /\
  (forall g,
      serial_conn g = SerialOpen ->
      write_faults (gui_line g) = [] ->
      exists n,
        (n <= live_turns (scanning (gui_line g)) (stop_clicks g) 16)%nat /\
        serial_out (gui_line (scan_dsm_thread g))
        = serial_out (gui_line g) ++ map segment_query (firstn n gui_ids) /\
        (silent (reads g) ->
         n = live_turns (scanning (gui_line g)) (stop_clicks g) 16) /\
        scanning (gui_line (scan_dsm_thread g)) = false).
Proof.
  split.
  - intros self start_id end_id step w Hstep (Hc & Hf).
    destruct (range_positive_step start_id (end_id + 1) step Hstep) as (ids & Hrange & _).
    exists ids. split; [exact Hrange|]. intros flag.
    unfold scan_eeprom_segments. rewrite Hrange.
    rewrite scan_loop_serial_out; [reflexivity|].
    split; [exact Hc | exact Hf].
  - intros g Hopen Hwf. unfold scan_dsm_thread.
    change (range 0xF100 0xF110 1) with (Ok gui_ids).
    destruct (scan_dsm_loop_queries gui_ids [] 0 g Hopen Hwf) as (n & Hn & Hout & Heq).
    exists n. change (List.length gui_ids) with 16%nat in *.
    destruct (scan_dsm_loop gui_ids [] 0 g) as [ended g1]. cbn [fst snd] in *.
    split; [exact Hn|].
    destruct ended as [[|seg segments] total|]; gui_simpl;
      destruct (gui_line g1); world_simpl; repeat split; assumption.
Qed.

(** The window scanning a silent line, with [stop_scan] run between its
    second and its third look at the flag: two queries, no third. *)
Lemma scan_interruption_witness :
  serial_out (gui_line (scan_dsm_thread (gui_on world_one_segment [false; false; true])))
  = [segment_query 0xF100; segment_query 0xF101].
Proof.
  destruct scan_interruption as (_ & Hgui).
  destruct (Hgui (gui_on world_one_segment [false; false; true]) eq_refl eq_refl)
    as (n & _ & Hout & Heq & _).
  rewrite Hout, (Heq (Forall_nil _)). reflexivity.
Defined.

(** * Further properties of the protocol engine *)

Lemma _send_uds_result_cases (self : DSMProtocol) (data : list Z) (payload : bytes)
      (w : World) :
  bytes_of_ints data = Some payload ->
  fst (_send_uds self data w) = Ok None
  \/ exists resp, fst (_send_uds self data w) = Ok (Some resp).
Proof.
  intros Hb. destruct (_send_uds_ok self data payload w Hb) as ([resp|] & Hr); eauto.
Qed.

(** [start_session] validates nothing.  The frame it writes carries
    [0x10, 0x03], and it returns the payload of the frame resolved against
    the receive id as it is, whatever its bytes, or [None]. *)
Theorem start_session_unvalidated (self : DSMProtocol) (w : World) :
  (exists payload,
      map byte_val payload = [0x10; 0x03] /\
      serial_out (snd (start_session self w))
      = serial_out w
        ++ (if can_send w then [OpenPortConnector.frame_line (tx_id self) payload] else [])) /\
  (forall resp,
      fst (start_session self w) = Ok (Some resp)
      <-> can_send w = true /\ frame_arrives self w resp) /\
  (fst (start_session self w) = Ok None
   \/ exists resp, fst (start_session self w) = Ok (Some resp)).
Proof.
  unfold start_session.
  assert (Hp : bytes_of_ints [0x10; 0x03] = Some (bytes_lit [0x10; 0x03])) by reflexivity.
  split; [|split].
  - exists (bytes_lit [0x10; 0x03]). split; [reflexivity|].
    apply (_send_uds_outcome self _ _ w Hp).
  - intros resp. apply (_send_uds_Some_iff self _ _ w resp Hp).
  - apply (_send_uds_result_cases self _ _ w Hp).
Qed.

(** Masking and shifting see only the low bits. *)
Lemma land_shiftr_mod (a k n : Z) :
  0 <= k -> k + 8 <= n ->
  Z.land (Z.shiftr (a mod 2 ^ n) k) 0xFF = Z.land (Z.shiftr a k) 0xFF.
Proof.
  intros Hk Hn. apply Z.bits_inj'. intros i Hi.
  rewrite !Z.land_spec. change 0xFF with (Z.ones 8).
  destruct (Z.ltb_spec i 8) as [Hlt|Hge].
  - rewrite !Z.shiftr_spec by lia. rewrite Z.mod_pow2_bits_low by lia. reflexivity.
  - rewrite Z.ones_spec_high by lia. now rewrite !andb_false_r.
Qed.

Lemma land_mod (a n : Z) : 8 <= n -> Z.land (a mod 2 ^ n) 0xFF = Z.land a 0xFF.
Proof.
  intros Hn. pose proof (land_shiftr_mod a 0 n ltac:(lia) ltac:(lia)) as H.
  now rewrite !Z.shiftr_0_r in H.
Qed.

Lemma read_data_by_identifier_result (self : DSMProtocol) (data_id : Z) (w : World) :
  exists response,
    fst (_send_uds self [0x22; Z.land (Z.shiftr data_id 8) 0xFF; Z.land data_id 0xFF] w)
    = Ok response /\
    fst (read_data_by_identifier self data_id w) = Ok (data_of_response data_id response).
Proof.
  destruct (bytes_of_ints_in_range _ (read_data_request_bytes data_id)) as (p & Hp & _).
  destruct (_send_uds_ok self _ p w Hp) as (response & Hr).
  exists response. split; [exact Hr|].
  rewrite read_data_by_identifier_run. apply fst_lift_result. exact Hr.
Qed.

(** The echo check of [read_data_by_identifier] compares byte 1 of the
    response with [data_id >> 8] unmasked, while the request is built from
    the masked bytes.  So for an identifier outside [0, 0xFFFF] the request
    of [data_id mod 0x10000] goes out and its response is consumed, and the
    result is [None] whatever comes back. *)
Theorem read_data_by_identifier_wide_id (self : DSMProtocol) (data_id : Z) (w : World) :
  ~ (0 <= data_id <= 0xFFFF) ->
  fst (read_data_by_identifier self data_id w) = Ok None /\
  snd (read_data_by_identifier self data_id w)
  = snd (read_data_by_identifier self (data_id mod 0x10000) w).
Proof.
  intros Hwide. split.
  - destruct (read_data_by_identifier_result self data_id w) as (response & _ & ->).
    destruct (data_of_response data_id response) as [out|] eqn:E; [|reflexivity].
    exfalso. apply data_of_response_Some in E.
    destruct E as (resp & _ & (_ & H1 & _) & _).
    unfold byte_at in H1. destruct (nth_error resp 1) as [b|]; [|discriminate].
    cbn [option_map] in H1. inversion H1 as [Hb].
    pose proof (byte_val_range b) as Hr. rewrite Hb in Hr.
    rewrite Z.shiftr_div_pow2 in Hr by lia. change (2 ^ 8) with 256 in Hr.
    apply Hwide.
    pose proof (Z.div_mod data_id 256 ltac:(lia)) as Hd.
    pose proof (Z.mod_pos_bound data_id 256 ltac:(lia)) as Hm. lia.
  - rewrite !read_data_by_identifier_run, !snd_lift_result.
    change 0x10000 with (2 ^ 16).
    rewrite (land_shiftr_mod data_id 8 16), (land_mod data_id 16) by lia.
    reflexivity.
Qed.

Lemma read_data_by_identifier_wide_id_witness :
  ~ (0 <= 0x1F190 <= 0xFFFF) /\
  fst (read_data_by_identifier DSMProtocol_init 0x1F190
         (world_replying [(0x7E8, bytes_lit [0x62; 0xF1; 0x90; 0x0A])]))
  = Ok None /\
  snd (read_data_by_identifier DSMProtocol_init 0x1F190
         (world_replying [(0x7E8, bytes_lit [0x62; 0xF1; 0x90; 0x0A])]))
  = snd (read_data_by_identifier DSMProtocol_init 0xF190
           (world_replying [(0x7E8, bytes_lit [0x62; 0xF1; 0x90; 0x0A])])).
Proof.
  split; [lia|].
  apply (read_data_by_identifier_wide_id DSMProtocol_init 0x1F190
           (world_replying [(0x7E8, bytes_lit [0x62; 0xF1; 0x90; 0x0A])])).
  lia.
Defined.

(** [read_memory_by_address] keeps the low 32 bits of the address and the low
    16 bits of the length and drops the rest without notice: a call is the
    call with [address mod 2^32] and [length mod 2^16], in what it writes and
    in what it returns. *)
Theorem read_memory_by_address_wraps (self : DSMProtocol) (address length : Z) (w : World) :
  read_memory_by_address self address length w
  = read_memory_by_address self (address mod 2 ^ 32) (length mod 2 ^ 16) w.
Proof.
  rewrite !read_memory_by_address_run.
  rewrite (land_shiftr_mod address 24 32), (land_shiftr_mod address 16 32),
    (land_shiftr_mod address 8 32), (land_mod address 32),
    (land_shiftr_mod length 8 16), (land_mod length 16) by lia.
  reflexivity.
Qed.

Lemma _send_uds_result_any_request (self : DSMProtocol) (data1 data2 : list Z)
      (p1 p2 : bytes) (w : World) :
  bytes_of_ints data1 = Some p1 ->
  bytes_of_ints data2 = Some p2 ->
  fst (_send_uds self data1 w) = fst (_send_uds self data2 w).
Proof.
  intros H1 H2.
  assert (Hto : forall r, fst (_send_uds self data1 w) = Ok (Some r)
                          -> fst (_send_uds self data2 w) = Ok (Some r)).
  { intros r E. apply (proj2 (_send_uds_Some_iff self data2 p2 w r H2)).
    exact (proj1 (_send_uds_Some_iff self data1 p1 w r H1) E). }
  assert (Hfrom : forall r, fst (_send_uds self data2 w) = Ok (Some r)
                            -> fst (_send_uds self data1 w) = Ok (Some r)).
  { intros r E. apply (proj2 (_send_uds_Some_iff self data1 p1 w r H1)).
    exact (proj1 (_send_uds_Some_iff self data2 p2 w r H2) E). }
  destruct (_send_uds_result_cases self data1 p1 w H1) as [E1 | (r1 & E1)].
  - destruct (_send_uds_result_cases self data2 p2 w H2) as [E2 | (r2 & E2)];
      [congruence|].
    apply Hfrom in E2. congruence.
  - rewrite E1. symmetry. apply Hto. exact E1.
Qed.

(** [read_memory_by_address] does not tie the response to the request: on
    the same receptions it returns the same value whatever address and
    length were asked for, and it does not compare the number of bytes it
    returns with the length. *)
Theorem read_memory_by_address_uncorrelated (self : DSMProtocol)
        (address length address' length' : Z) (w : World) :
  fst (read_memory_by_address self address length w)
  = fst (read_memory_by_address self address' length' w).
Proof.
  rewrite !read_memory_by_address_run.
  destruct (bytes_of_ints_in_range _ (read_memory_request_bytes address length))
    as (p & Hp & _).
  destruct (bytes_of_ints_in_range _ (read_memory_request_bytes address' length'))
    as (p' & Hp' & _).
  pose proof (_send_uds_result_any_request self _ _ p p' w Hp Hp') as Heq.
  destruct (_send_uds_ok self _ p w Hp) as (response & Hr).
  rewrite (fst_lift_result _ _ _ Hr).
  rewrite Heq in Hr. rewrite (fst_lift_result _ _ _ Hr). reflexivity.
Qed.

(** ** Bounded wait *)

Lemma _send_uds_loop_bounded (fuel : nat) (self : DSMProtocol) (start : Z) :
  forall (w : World) (r : option bytes) (w' : World),
    is_connected w = true ->
    Forall (fun ev => (rx_elapsed ev <= 100)%N) (rx_script w) ->
    now w - start < 2100 ->
    _send_uds_loop fuel self start w = Some (r, w') ->
    now w <= now w' /\ now w' - start < 2100.
Proof.
  induction fuel as [|fuel IH]; intros w r w' Hc Hall Hin Hrun; [discriminate|].
  cbn [_send_uds_loop] in Hrun.
  destruct (now w - start <? 2000) eqn:Hlt.
  - apply Z.ltb_lt in Hlt.
    unfold OpenPortConnector.receive_can_frame in Hrun.
    rewrite Hc in Hrun. cbn [negb] in Hrun.
    change (100 <=? 0) with false in Hrun. cbv iota in Hrun.
    destruct (rx_script w) as [|ev rest] eqn:Hs.
    + apply IH in Hrun; world_simpl; try assumption; try lia.
      rewrite Hs. constructor.
    + inversion Hall as [|? ? Hev Hrest]; subst.
      assert (Hnext : forall r0 w0,
                 _send_uds_loop fuel self start
                   (set_rx_script rest (set_now (now w + Z.of_N (rx_elapsed ev)) w))
                 = Some (r0, w0) ->
                 now w <= now w0 /\ now w0 - start < 2100).
      { intros r0 w0 Hrec. apply IH in Hrec; world_simpl; try assumption; lia. }
      destruct (rx_frame ev) as [[resp_id resp_data]|].
      * destruct (resp_id =? rx_id self); [|now apply (Hnext r w')].
        inversion Hrun; subst r w'. world_simpl. lia.
      * now apply (Hnext r w').
  - inversion Hrun; subst r w'. lia.
Qed.

(** When no reception takes longer than the slice of 100 ms it is given,
    [_send_uds] returns less than 2100 ms after it was called, and a timeout
    is reported no earlier than 2000 ms after the send. *)
Theorem _send_uds_bounded_wait (self : DSMProtocol) (data : list Z) (payload : bytes)
        (w : World) :
  bytes_of_ints data = Some payload ->
  Forall (fun ev => (rx_elapsed ev <= 100)%N) (rx_script w) ->
  let r := _send_uds self data w in
  now w <= now (snd r) < now w + 2100 /\
  (can_send w = true -> fst r = Ok None -> now w + 2000 <= now (snd r)).
Proof.
  intros Hb Hall. cbv zeta. split.
  - unfold _send_uds. rewrite Hb.
    pose proof (send_can_frame_spec (tx_id self) payload w) as Hsend.
    destruct (OpenPortConnector.send_can_frame (tx_id self) payload w) as [ok w1].
    cbn [fst snd] in Hsend. destruct Hsend as (Hok & _ & Hcon & Hnow & Hrx & _).
    subst ok. destruct (can_send w) eqn:Hcs; cbn [snd]; [|lia].
    assert (Hc : is_connected w1 = true).
    { rewrite Hcon. unfold can_send in Hcs. now apply andb_true_iff in Hcs. }
    destruct (poll_fuel_enough self w1 Hc) as ([r w2] & Hrun). rewrite Hrun. cbn [snd].
    apply _send_uds_loop_bounded in Hrun; try assumption; try lia.
    rewrite Hrx. exact Hall.
  - intros Hcs Hnone.
    destruct (_send_uds_outcome self data payload w Hb) as (_ & _ & _ & H).
    rewrite Hcs in H. destruct H as (pre & _ & H). rewrite Hnone in H. lia.
Qed.

(** A line that stays silent after one stray frame. *)
Lemma _send_uds_bounded_wait_witness :
  (bytes_of_ints [0x10; 0x03] = Some (bytes_lit [0x10; 0x03]) /\
   Forall (fun ev => (rx_elapsed ev <= 100)%N)
          (rx_script (world_replying [(0x123, bytes_lit [0xFF])]))) /\
  fst (_send_uds DSMProtocol_init [0x10; 0x03] (world_replying [(0x123, bytes_lit [0xFF])]))
  = Ok None /\
  2000 <= now (snd (_send_uds DSMProtocol_init [0x10; 0x03]
                      (world_replying [(0x123, bytes_lit [0xFF])]))) < 2100.
Proof.
  assert (Hall : Forall (fun ev => (rx_elapsed ev <= 100)%N)
                        (rx_script (world_replying [(0x123, bytes_lit [0xFF])])))
    by (repeat constructor; cbn; lia).
  split; [split; [reflexivity | exact Hall]|].
  split; [vm_compute; reflexivity|].
  destruct (_send_uds_bounded_wait DSMProtocol_init [0x10; 0x03] (bytes_lit [0x10; 0x03])
              (world_replying [(0x123, bytes_lit [0xFF])]) eq_refl Hall) as (Hup & Hlow).
  split.
  - apply (Hlow eq_refl). vm_compute. reflexivity.
  - apply Hup.
Defined.

(** ** A connector that is not connected *)

Lemma _send_uds_disconnected (self : DSMProtocol) (data : list Z) (payload : bytes)
      (w : World) :
  bytes_of_ints data = Some payload ->
  is_connected w = false ->
  _send_uds self data w = (Ok None, w).
Proof.
  intros Hb Hc. unfold _send_uds, OpenPortConnector.send_can_frame.
  rewrite Hb, Hc. reflexivity.
Qed.

Lemma set_now_same (w : World) : set_now (now w + 20 * Z.of_nat 0) w = w.
Proof.
  destruct w. unfold set_now. world_simpl. f_equal. cbn. lia.
Qed.

Lemma sleep_set_now (w : World) (n : nat) :
  set_now (now (sleep 20 w) + 20 * Z.of_nat n) (sleep 20 w)
  = set_now (now w + 20 * Z.of_nat (S n)) w.
Proof.
  destruct w. unfold sleep, set_now. world_simpl. f_equal. lia.
Qed.

Lemma scan_loop_disconnected (self : DSMProtocol) (ids : list Z) :
  forall (segments : list (Z * bytes)) (w : World),
    is_connected w = false ->
    scan_loop self ids segments w
    = (Ok segments, set_now (now w + 20 * Z.of_nat (List.length ids)) w).
Proof.
  induction ids as [|seg_id rest IH]; intros segments w Hc; cbn [scan_loop List.length].
  - unfold ret. now rewrite set_now_same.
  - unfold bind at 1. rewrite read_data_by_identifier_run.
    rewrite (_send_uds_disconnected self _ _ w
               (bytes_lit_Some _ (read_data_request_bytes seg_id)) Hc).
    cbn [lift_result data_of_response]. unfold bind at 1.
    rewrite IH by exact Hc. now rewrite sleep_set_now.
Qed.

(** On a connector that is not connected every operation gives up at once:
    nothing is written, no reception is consumed and no time passes; the
    result is [None], or [False] for level 2 of [security_access].  A scan
    with a positive step then returns the empty list after nothing but its
    pauses of 20 ms, one for each identifier of the range. *)
Theorem operations_when_disconnected (self : DSMProtocol) (w : World) :
  is_connected w = false ->
  start_session self w = (Ok None, w) /\
  (forall data_id, read_data_by_identifier self data_id w = (Ok None, w)) /\
  (forall key, security_access self 1 key w = (Ok SANone, w)) /\
  (forall b k, security_access self 2 (Some (b :: k)) w = (Ok (SABool false), w)) /\
  (forall address length, read_memory_by_address self address length w = (Ok None, w)) /\
  (forall start_id end_id step,
      0 < step ->
      exists ids,
        range start_id (end_id + 1) step = Ok ids /\
        scan_eeprom_segments self start_id end_id step w
        = (Ok [], set_now (now w + 20 * Z.of_nat (List.length ids)) w)).
Proof.
  intros Hc. split; [|split; [|split; [|split; [|split]]]].
  - apply (_send_uds_disconnected self [0x10; 0x03] (bytes_lit [0x10; 0x03]) w eq_refl Hc).
  - intros data_id. rewrite read_data_by_identifier_run.
    now rewrite (_send_uds_disconnected self _ _ w
                   (bytes_lit_Some _ (read_data_request_bytes data_id)) Hc).
  - intros key. rewrite security_access_seed_run.
    now rewrite (_send_uds_disconnected self [0x27; 0x01] (bytes_lit [0x27; 0x01]) w
                   eq_refl Hc).
  - intros b k. rewrite security_access_key_run.
    destruct (key_request_bytes (b :: k)) as (p & Hp & _).
    now rewrite (_send_uds_disconnected self _ p w Hp Hc).
  - intros address length. rewrite read_memory_by_address_run.
    now rewrite (_send_uds_disconnected self _ _ w
                   (bytes_lit_Some _ (read_memory_request_bytes address length)) Hc).
  - intros start_id end_id step Hstep.
    destruct (range_positive_step start_id (end_id + 1) step Hstep) as (ids & Hrange & _).
    exists ids. split; [exact Hrange|].
    unfold scan_eeprom_segments. rewrite Hrange. now apply scan_loop_disconnected.
Qed.

(** A connector that was never connected, with a response waiting. *)
Definition world_disconnected : World :=
  mkWorld false 0 [] [] [mkRx 10 (Some (0x7E8, bytes_lit [0x62; 0xF1; 0x00; 0x01]))] true.

Lemma operations_when_disconnected_witness :
  is_connected world_disconnected = false /\
  read_data_by_identifier DSMProtocol_init 0xF100 world_disconnected
  = (Ok None, world_disconnected) /\
  scan_eeprom_segments DSMProtocol_init 0xF100 0xF120 0x10 world_disconnected
  = (Ok [], set_now 60 world_disconnected).
Proof.
  split; [reflexivity|].
  destruct (operations_when_disconnected DSMProtocol_init world_disconnected eq_refl)
    as (_ & Hread & _ & _ & _ & Hscan).
  split; [apply Hread|].
  destruct (Hscan 0xF100 0xF120 0x10 ltac:(lia)) as (ids & Hrange & Hres).
  vm_compute in Hrange. inversion Hrange; subst ids. exact Hres.
Defined.

(** ** What a scan returns *)

Lemma found_spec (qs : list (Z * result (option bytes))) (seg : Z * bytes) :
  In seg (flat_map found qs) ->
  In (fst seg, Ok (Some (snd seg))) qs /\ snd seg <> [].
Proof.
  induction qs as [|[seg_id r] qs IH]; cbn [flat_map]; [contradiction|].
  intros Hin. apply in_app_or in Hin. destruct Hin as [Hin|Hin].
  - unfold found in Hin. cbn [fst snd] in Hin.
    destruct r as [[[|b d]|]|e]; try contradiction.
    destruct Hin as [<-|[]]. cbn [fst snd]. split; [now left | discriminate].
  - destruct (IH Hin) as (H1 & H2). split; [now right | exact H2].
Qed.

Lemma found_sorted (qs : list (Z * result (option bytes))) :
  StronglySorted Z.lt (map fst qs) ->
  StronglySorted Z.lt (map fst (flat_map found qs)).
Proof.
  induction qs as [|[seg_id r] qs IH]; cbn [flat_map map]; intros Hs; [constructor|].
  inversion Hs as [|? ? Hrest Hall]; subst.
  assert (Htail : Forall (Z.lt seg_id) (map fst (flat_map found qs))).
  { apply Forall_forall. intros x Hx. apply in_map_iff in Hx.
    destruct Hx as (seg & <- & Hseg). apply found_spec in Hseg.
    destruct Hseg as (Hq & _).
    rewrite Forall_forall in Hall. apply Hall.
    change (fst seg) with (fst (fst seg, @Ok (option bytes) (Some (snd seg)))).
    apply in_map. exact Hq. }
  unfold found at 1. cbn [fst snd].
  destruct r as [[[|b d]|]|e]; cbn [app map fst]; try (apply IH; exact Hrest).
  constructor; [apply IH; exact Hrest | exact Htail].
Qed.

(** The list a scan with a positive step returns is in strictly ascending
    order of identifier, so no identifier occurs twice, and each of its
    entries has data that is not empty and an identifier of the range:
    [start_id + k * step] for some [k >= 0], at most [end_id]. *)
Theorem scan_eeprom_segments_result_ordered (self : DSMProtocol)
        (start_id end_id step : Z) (w : World) (segments : list (Z * bytes)) :
  0 < step ->
  fst (scan_eeprom_segments self start_id end_id step w) = Ok segments ->
  StronglySorted Z.lt (map fst segments) /\
  Forall (fun seg =>
            snd seg <> [] /\
            exists k, 0 <= k /\ fst seg = start_id + k * step /\ fst seg <= end_id)
         segments.
Proof.
  intros Hstep Hres.
  destruct (range_positive_step start_id (end_id + 1) step Hstep)
    as (ids & Hrange & Hin & Hsorted).
  unfold scan_eeprom_segments in Hres. rewrite Hrange, scan_loop_run in Hres.
  inversion Hres as [Hsegs]. cbn [app]. split.
  - apply found_sorted. now rewrite scan_queries_ids.
  - apply Forall_forall. intros seg Hseg. apply found_spec in Hseg.
    destruct Hseg as (Hq & Hdata). split; [exact Hdata|].
    assert (Hid : In (fst seg) ids).
    { rewrite <- (scan_queries_ids self ids w).
      change (fst seg) with (fst (fst seg, @Ok (option bytes) (Some (snd seg)))).
      apply in_map. exact Hq. }
    apply Hin in Hid. destruct Hid as (k & Hk & Hx & Hlt).
    exists k. repeat split; lia.
Qed.

(** A line on which the first and the third identifier answer. *)
Definition world_two_segments : World :=
  mkWorld true 0 [] []
    [mkRx 10 (Some (0x7E8, bytes_lit [0x62; 0xF1; 0x00; 0x01; 0x02]));
     mkRx 2100 None;
     mkRx 10 (Some (0x7E8, bytes_lit [0x62; 0xF1; 0x20; 0x03]))]
    true.

Lemma scan_eeprom_segments_result_ordered_witness :
  (0 < 0x10 /\
   fst (scan_eeprom_segments DSMProtocol_init 0xF100 0xF120 0x10 world_two_segments)
   = Ok [(0xF100, bytes_lit [0x01; 0x02]); (0xF120, bytes_lit [0x03])]) /\
  StronglySorted Z.lt [0xF100; 0xF120].
Proof.
  assert (Hrun :
            fst (scan_eeprom_segments DSMProtocol_init 0xF100 0xF120 0x10 world_two_segments)
            = Ok [(0xF100, bytes_lit [0x01; 0x02]); (0xF120, bytes_lit [0x03])])
    by (vm_compute; reflexivity).
  split; [split; [lia | exact Hrun]|].
  apply (scan_eeprom_segments_result_ordered DSMProtocol_init 0xF100 0xF120 0x10
           world_two_segments _ ltac:(lia) Hrun).
Defined.

(** ** Steps that are not positive *)

(** With a step of zero the scan fails with [ValueError] before any query,
    whatever the bounds; with a negative step and [start_id <= end_id] the
    range is empty, and the scan returns the empty list without a query or a
    pause. *)
Theorem scan_eeprom_segments_step_not_positive (self : DSMProtocol)
        (start_id end_id step : Z) (w : World) :
  scan_eeprom_segments self start_id end_id 0 w = (Raise ValueError, w) /\
  (step < 0 ->
   start_id <= end_id ->
   scan_eeprom_segments self start_id end_id step w = (Ok [], w)).
Proof.
  split; [reflexivity|].
  intros Hstep Hrange. unfold scan_eeprom_segments, range.
  destruct (step =? 0) eqn:E0; [apply Z.eqb_eq in E0; lia|].
  unfold range_len.
  replace (0 <? step) with false by (symmetry; apply Z.ltb_ge; lia).
  replace (Z.max 0 ((start_id - (end_id + 1) - step - 1) / - step)) with 0.
  - reflexivity.
  - assert ((start_id - (end_id + 1) - step - 1) / - step <= 0); [|lia].
    assert ((start_id - (end_id + 1) - step - 1) / - step < 1); [|lia].
    apply Z.div_lt_upper_bound; lia.
Qed.

Lemma scan_eeprom_segments_step_not_positive_witness :
  (-0x10 < 0 /\ 0xF100 <= 0xF120) /\
  scan_eeprom_segments DSMProtocol_init 0xF100 0xF120 (-0x10) world_one_segment
  = (Ok [], world_one_segment) /\
  scan_eeprom_segments DSMProtocol_init 0xF120 0xF100 0 world_one_segment
  = (Raise ValueError, world_one_segment).
Proof.
  split; [lia|]. split.
  - apply (scan_eeprom_segments_step_not_positive DSMProtocol_init 0xF100 0xF120 (-0x10)
             world_one_segment); lia.
  - apply (scan_eeprom_segments_step_not_positive DSMProtocol_init 0xF120 0xF100 0
             world_one_segment).
Defined.

Ltac connector_simpl :=
  cbn [line baudrate serial open_faults replies
       set_line set_serial set_open_faults set_replies pause] in *.

Definition answered (r : Reply) : bool :=
  match reply_text r with Some _ => true | None => false end.

(** A command sent now goes through: the write does not raise, and neither
    does the read of the answer. *)
Definition command_ok (c : Connector) : bool :=
  negb (hd false (write_faults (line c)))
  && match replies c with [] => true | r :: _ => answered r end.

Lemma _send_command_open (cmd : string) (c : Connector) :
  serial c = SerialOpen ->
  let r := _send_command cmd c in
  (fst r <> None <-> command_ok c = true) /\
  serial (snd r) = SerialOpen /\
  baudrate (snd r) = baudrate c /\
  open_faults (snd r) = open_faults c /\
  is_connected (line (snd r)) = is_connected (line c) /\
  write_faults (line (snd r)) = tl (write_faults (line c)) /\
  (command_ok c = true ->
   replies (snd r) = tl (replies c) /\
   serial_out (line (snd r)) = serial_out (line c) ++ [(cmd ++ CR)%string] /\
   now (line c) + 50 <= now (line (snd r))) /\
  (command_ok c = false ->
   serial_out (line (snd r)) = serial_out (line c)
   \/ serial_out (line (snd r)) = serial_out (line c) ++ [(cmd ++ CR)%string]).
Proof.
  intros Hopen. unfold _send_command, command_ok, OpenPortConnector.serial_write.
  rewrite Hopen. destruct c as [w rate h faults rs]. connector_simpl. subst h.
  destruct w as [con t out wf rx flag]. world_simpl.
  destruct wf as [|[|] wf]; destruct rs as [|r rs]; unfold answered;
    try destruct (reply_text r);
    cbn [hd negb andb tl fst snd]; connector_simpl; world_simpl;
    repeat split; intros; connector_simpl; world_simpl; cbn [fst snd tl] in *;
    try congruence; try discriminate; try lia; auto.
Qed.

Lemma try_command_open (cmd : string) (k : Connector -> bool * Connector) (c : Connector) :
  serial c = SerialOpen ->
  try_command cmd k c
  = if command_ok c then k (snd (_send_command cmd c))
    else (false, snd (_send_command cmd c)).
Proof.
  intros Hopen. unfold try_command.
  destruct (_send_command_open cmd c Hopen) as (Hiff & _).
  destruct (_send_command cmd c) as [[txt|] c1]; cbn [fst snd] in *;
    destruct (command_ok c); try reflexivity.
  - assert (false = true) by (apply Hiff; discriminate). discriminate.
  - exfalso. apply (proj2 Hiff); reflexivity.
Qed.

(** The head of a script allows the next step. *)
Definition head_ok {A} (f : A -> bool) (l : list A) : bool :=
  match l with [] => true | x :: _ => f x end.

Lemma forallb_firstn_4 {A} (f : A -> bool) (l : list A) :
  forallb f (firstn 4 l)
  = head_ok f l && head_ok f (tl l) && head_ok f (tl (tl l)) && head_ok f (tl (tl (tl l))).
Proof.
  destruct l as [|a [|b [|c [|d l]]]]; cbn [firstn forallb head_ok tl];
    rewrite ?andb_true_r, ?andb_assoc; reflexivity.
Qed.

Lemma command_ok_heads (c : Connector) :
  command_ok c = head_ok negb (write_faults (line c)) && head_ok answered (replies c).
Proof.
  unfold command_ok. destruct (write_faults (line c)); reflexivity.
Qed.

(** The commands of [connect], as written to the port. *)
Definition setup_commands (rate : Z) : list string :=
  [("C" ++ CR)%string; ("O" ++ CR)%string; ("S" ++ decimal rate ++ CR)%string;
   ("M1" ++ CR)%string].

(** The state in which [connect] sends its [n]-th command when all went well
    so far. *)
Fixpoint connect_state (n : nat) (c : Connector) : Connector :=
  match n with
  | O => set_serial SerialOpen (set_open_faults (tl (open_faults c)) c)
  | S n' =>
      let c' := connect_state n' c in
      pause 100 (snd (_send_command (nth n' ["C"; "O"; "S" ++ decimal (baudrate c)]
                                         EmptyString)%string c'))
  end.

Lemma connect_state_spec (n : nat) (c : Connector) :
  let c' := connect_state n c in
  serial c' = SerialOpen /\
  baudrate c' = baudrate c /\
  open_faults c' = tl (open_faults c) /\
  is_connected (line c') = is_connected (line c) /\
  write_faults (line c') = Nat.iter n (@tl bool) (write_faults (line c)).
Proof.
  induction n as [|n IH]; cbn [connect_state].
  - connector_simpl. repeat split; reflexivity.
  - cbv zeta in *. destruct IH as (Hs & Hb & Ho & Hc & Hwf).
    destruct (_send_command_open
                (nth n ["C"; "O"; "S" ++ decimal (baudrate c)] EmptyString)%string
                (connect_state n c) Hs)
      as (_ & Hs1 & Hb1 & Ho1 & Hc1 & Hwf1 & _).
    connector_simpl. world_simpl. repeat split; try congruence.
    rewrite Hwf1, Hwf. reflexivity.
Qed.

Lemma connect_unfold (c : Connector) :
  hd false (open_faults c) = false ->
  connect c
  = let c0 := connect_state 0 c in
    if command_ok c0 then
      let c1 := connect_state 1 c in
      if command_ok c1 then
        let c2 := connect_state 2 c in
        if command_ok c2 then
          let c3 := connect_state 3 c in
          if command_ok c3 then
            let c4 := snd (_send_command "M1" c3) in
            (true, set_line (set_is_connected true (line c4)) c4)
          else (false, snd (_send_command "M1" c3))
        else (false, snd (_send_command ("S" ++ decimal (baudrate c)) c2))
      else (false, snd (_send_command "O" c1))
    else (false, snd (_send_command "C" c0)).
Proof.
  intros Hopen. unfold connect.
  assert (Hbody :
            (let c0 := set_serial SerialOpen (set_open_faults (tl (open_faults c)) c) in
             try_command "C" (fun c1 =>
             try_command "O" (fun c2 =>
             try_command ("S" ++ decimal (baudrate c2)) (fun c3 =>
             try_command "M1" (fun c4 =>
               (true, set_line (set_is_connected true (line c4)) c4))
               (pause 100 c3))
               (pause 100 c2))
               (pause 100 c1))
               c0)
            = let c0 := connect_state 0 c in
              if command_ok c0 then
                let c1 := connect_state 1 c in
                if command_ok c1 then
                  let c2 := connect_state 2 c in
                  if command_ok c2 then
                    let c3 := connect_state 3 c in
                    if command_ok c3 then
                      let c4 := snd (_send_command "M1" c3) in
                      (true, set_line (set_is_connected true (line c4)) c4)
                    else (false, snd (_send_command "M1" c3))
                  else (false, snd (_send_command ("S" ++ decimal (baudrate c)) c2))
                else (false, snd (_send_command "O" c1))
              else (false, snd (_send_command "C" c0))).
  { cbv zeta.
    rewrite (try_command_open "C" _ (connect_state 0 c))
      by apply (connect_state_spec 0 c).
    destruct (command_ok (connect_state 0 c)); [|reflexivity].
    change (pause 100 (snd (_send_command "C" (connect_state 0 c))))
      with (connect_state 1 c).
    rewrite (try_command_open "O" _ (connect_state 1 c))
      by apply (connect_state_spec 1 c).
    destruct (command_ok (connect_state 1 c)); [|reflexivity].
    change (pause 100 (snd (_send_command "O" (connect_state 1 c))))
      with (connect_state 2 c).
    change (baudrate (snd (_send_command "O" (connect_state 1 c))))
      with (baudrate (connect_state 2 c)).
    replace (baudrate (connect_state 2 c)) with (baudrate c)
      by (symmetry; apply (connect_state_spec 2 c)).
    rewrite (try_command_open _ _ (connect_state 2 c))
      by apply (connect_state_spec 2 c).
    destruct (command_ok (connect_state 2 c)); [|reflexivity].
    change (pause 100 (snd (_send_command ("S" ++ decimal (baudrate c))
                                          (connect_state 2 c))))
      with (connect_state 3 c).
    rewrite (try_command_open "M1" _ (connect_state 3 c))
      by apply (connect_state_spec 3 c).
    reflexivity. }
  destruct (open_faults c) as [|[|] rest]; cbn [hd] in Hopen; try discriminate;
    exact Hbody.
Qed.

Lemma connect_state_progress (n : nat) (c : Connector) :
  (n <= 3)%nat ->
  (forall k, (k < n)%nat -> command_ok (connect_state k c) = true) ->
  replies (connect_state n c) = Nat.iter n (@tl Reply) (replies c) /\
  serial_out (line (connect_state n c))
  = serial_out (line c) ++ firstn n (setup_commands (baudrate c)) /\
  now (line c) + 150 * Z.of_nat n <= now (line (connect_state n c)).
Proof.
  induction n as [|n IH]; intros Hn Hok.
  - cbn [connect_state firstn Nat.iter nat_rect]. connector_simpl.
    rewrite app_nil_r. repeat split; lia.
  - destruct IH as (Hr & Hout & Hnow); [lia | intros k Hk; apply Hok; lia |].
    destruct (_send_command_open
                (nth n ["C"; "O"; "S" ++ decimal (baudrate c)] EmptyString)%string
                (connect_state n c) (proj1 (connect_state_spec n c)))
      as (_ & _ & _ & _ & _ & _ & Hgood & _).
    destruct (Hgood (Hok n ltac:(lia))) as (Hr1 & Hout1 & Hnow1).
    cbn [connect_state]. connector_simpl. world_simpl.
    split; [|split].
    + rewrite Hr1, Hr. reflexivity.
    + rewrite Hout1, Hout, <- app_assoc. f_equal.
      destruct n as [|[|[|n]]]; try lia; reflexivity.
    + lia.
Qed.

(** [connect] returns [True] exactly when the port opens and none of the four
    commands fails: no write among the next four raises and no read of an
    answer among the next four raises.  What the adapter answers, if it
    answers at all, plays no part. *)
Theorem connect_succeeds_iff (c : Connector) :
  fst (connect c)
  = negb (hd false (open_faults c))
    && forallb negb (firstn 4 (write_faults (line c)))
    && forallb answered (firstn 4 (replies c)).
Proof.
  destruct (hd false (open_faults c)) eqn:Hopen.
  - unfold connect. destruct (open_faults c) as [|[|] rest]; try discriminate. reflexivity.
  - rewrite (connect_unfold c Hopen), !forallb_firstn_4. cbv zeta. cbn [negb andb].
    pose proof (fun n => proj2 (proj2 (proj2 (proj2 (connect_state_spec n c)))))
      as Hwf. cbv zeta in Hwf.
    assert (Hok : forall n, command_ok (connect_state n c)
                            = head_ok negb (Nat.iter n (@tl bool) (write_faults (line c)))
                              && head_ok answered (replies (connect_state n c))).
    { intros n. rewrite command_ok_heads, Hwf. reflexivity. }
    set (W0 := head_ok negb (write_faults (line c))) in *.
    set (W1 := head_ok negb (tl (write_faults (line c)))) in *.
    set (W2 := head_ok negb (tl (tl (write_faults (line c))))) in *.
    set (W3 := head_ok negb (tl (tl (tl (write_faults (line c)))))) in *.
    set (R0 := head_ok answered (replies c)).
    set (R1 := head_ok answered (tl (replies c))).
    set (R2 := head_ok answered (tl (tl (replies c)))).
    set (R3 := head_ok answered (tl (tl (tl (replies c))))).
    assert (H0 : command_ok (connect_state 0 c) = W0 && R0) by apply (Hok 0%nat).
    rewrite H0. destruct (W0 && R0) eqn:E0;
      [|cbn [fst]; destruct W0, R0, W1, W2, W3; cbn in *; congruence].
    assert (P1 : forall k, (k < 1)%nat -> command_ok (connect_state k c) = true).
    { intros k Hk. replace k with 0%nat by lia. congruence. }
    assert (H1 : command_ok (connect_state 1 c) = W1 && R1).
    { rewrite (Hok 1%nat).
      rewrite (proj1 (connect_state_progress 1 c ltac:(lia) P1)). reflexivity. }
    rewrite H1. destruct (W1 && R1) eqn:E1;
      [|cbn [fst]; destruct W0, R0, W1, R1, W2, W3; cbn in *; congruence].
    assert (P2 : forall k, (k < 2)%nat -> command_ok (connect_state k c) = true).
    { intros k Hk. destruct k as [|[|k]]; try lia; congruence. }
    assert (H2 : command_ok (connect_state 2 c) = W2 && R2).
    { rewrite (Hok 2%nat).
      rewrite (proj1 (connect_state_progress 2 c ltac:(lia) P2)). reflexivity. }
    rewrite H2. destruct (W2 && R2) eqn:E2;
      [|cbn [fst]; destruct W0, R0, W1, R1, W2, R2, W3; cbn in *; congruence].
    assert (P3 : forall k, (k < 3)%nat -> command_ok (connect_state k c) = true).
    { intros k Hk. destruct k as [|[|[|k]]]; try lia; congruence. }
    assert (H3 : command_ok (connect_state 3 c) = W3 && R3).
    { rewrite (Hok 3%nat).
      rewrite (proj1 (connect_state_progress 3 c ltac:(lia) P3)). reflexivity. }
    rewrite H3.
    destruct W0, R0, W1, R1, W2, R2, W3, R3; cbn in *; congruence.
Qed.

Lemma connect_open_fault (c : Connector) :
  hd false (open_faults c) = true ->
  connect c = (false, set_open_faults (tl (open_faults c)) c).
Proof.
  intros Hopen. unfold connect.
  destruct (open_faults c) as [|[|] rest]; try discriminate. reflexivity.
Qed.

(** After a [connect] that returned [True] the connector is connected, its
    port is open, the four commands [C], [O], [S] with the bus speed in
    decimal and [M1] were written in that order, each ended by a carriage
    return, and nothing else; and at least 500 ms have passed, the four
    settle times and the three pauses.  Nothing is said of the receptions:
    the reads of the answers take what they find at the port. *)
Theorem connect_success (c : Connector) :
  fst (connect c) = true ->
  let c' := snd (connect c) in
  is_connected (line c') = true /\
  serial c' = SerialOpen /\
  serial_out (line c') = serial_out (line c) ++ setup_commands (baudrate c) /\
  now (line c) + 500 <= now (line c').
Proof.
  intros Hres. cbv zeta.
  destruct (hd false (open_faults c)) eqn:Hopen.
  - rewrite (connect_open_fault c Hopen) in Hres. discriminate.
  - remember (connect c) as r eqn:Hr.
    rewrite (connect_unfold c Hopen) in Hr. cbv zeta in Hr.
    destruct (command_ok (connect_state 0 c)) eqn:E0; [|subst r; discriminate].
    destruct (command_ok (connect_state 1 c)) eqn:E1; [|subst r; discriminate].
    destruct (command_ok (connect_state 2 c)) eqn:E2; [|subst r; discriminate].
    destruct (command_ok (connect_state 3 c)) eqn:E3; [|subst r; discriminate].
    clear Hres. subst r. cbn [snd].
    assert (P3 : forall k, (k < 3)%nat -> command_ok (connect_state k c) = true).
    { intros k Hk. destruct k as [|[|[|k]]]; try lia; assumption. }
    destruct (connect_state_progress 3 c ltac:(lia) P3) as (_ & Hout & Hnow).
    destruct (connect_state_spec 3 c) as (Hs & _).
    destruct (_send_command_open "M1" (connect_state 3 c) Hs)
      as (_ & Hs1 & _ & _ & _ & _ & Hgood & _).
    destruct (Hgood E3) as (_ & Hout1 & Hnow1).
    generalize dependent (snd (_send_command "M1" (connect_state 3 c))).
    generalize dependent (connect_state 3 c). intros.
    connector_simpl. unfold set_is_connected. world_simpl.
    repeat split; try congruence.
    + rewrite Hout1, Hout, <- app_assoc. reflexivity.
    + lia.
Qed.

(** An adapter that opens and takes the commands but never answers. *)
Definition mute_adapter : Connector := OpenPortConnector_init 500000.

Lemma connect_success_witness :
  fst (connect mute_adapter) = true /\
  is_connected (line (snd (connect mute_adapter))) = true /\
  serial_out (line (snd (connect mute_adapter)))
  = [("C" ++ CR)%string; ("O" ++ CR)%string; ("S500000" ++ CR)%string; ("M1" ++ CR)%string].
Proof.
  split; [reflexivity|].
  destruct (connect_success mute_adapter eq_refl) as (Hc & _ & Hout & _).
  split; [exact Hc | exact Hout].
Defined.

(** A frame is waiting at the port when [connect] is called, and the read of
    the answer to [C] takes it with the answer. *)
Definition adapter_with_waiting_frame : Connector :=
  mkConnector (mkWorld false 0 [] [] [mkRx 10 (Some (0x7E8, []))] false)
              500000 NoSerial [] [mkReply 5 (Some EmptyString) []].

(** [connect] succeeds there, and the frame is not received afterwards. *)
Example connect_takes_waiting_frame :
  fst (connect adapter_with_waiting_frame) = true /\
  rx_script (line adapter_with_waiting_frame) = [mkRx 10 (Some (0x7E8, []))] /\
  fst (OpenPortConnector.receive_can_frame 100 (line (snd (connect adapter_with_waiting_frame))))
  = None.
Proof. vm_compute. repeat split; reflexivity. Qed.

(** A [connect] that returned [False] leaves [is_connected] as it was, so a
    connector that was connected still counts as connected afterwards; what
    it wrote is a prefix of the four commands. *)
Theorem connect_failure (c : Connector) :
  fst (connect c) = false ->
  let c' := snd (connect c) in
  is_connected (line c') = is_connected (line c) /\
  exists n, (n <= 4)%nat /\
            serial_out (line c')
            = serial_out (line c) ++ firstn n (setup_commands (baudrate c)).
Proof.
  intros Hres. cbv zeta.
  destruct (hd false (open_faults c)) eqn:Hopen.
  - rewrite (connect_open_fault c Hopen).
    cbn [snd]. connector_simpl. split; [reflexivity|].
    exists 0%nat. cbn [firstn]. rewrite app_nil_r. split; [lia | reflexivity].
  - assert (Hstep : forall n cmd,
               (n <= 3)%nat ->
               (forall k, (k < n)%nat -> command_ok (connect_state k c) = true) ->
               command_ok (connect_state n c) = false ->
               nth n (setup_commands (baudrate c)) EmptyString = (cmd ++ CR)%string ->
               is_connected (line (snd (_send_command cmd (connect_state n c))))
               = is_connected (line c) /\
               exists m, (m <= 4)%nat /\
                 serial_out (line (snd (_send_command cmd (connect_state n c))))
                 = serial_out (line c) ++ firstn m (setup_commands (baudrate c))).
    { intros n cmd Hn Hprev Hbad Hcmd.
      destruct (connect_state_progress n c Hn Hprev) as (_ & Hout & _).
      destruct (connect_state_spec n c) as (Hs & _ & _ & Hcon & _).
      destruct (_send_command_open cmd (connect_state n c) Hs)
        as (_ & _ & _ & _ & Hcon1 & _ & _ & Hfail).
      split; [congruence|].
      destruct (Hfail Hbad) as [Hsame | Hmore].
      - exists n. split; [lia | congruence].
      - exists (S n). split; [lia|].
        rewrite Hmore, Hout, <- app_assoc. f_equal.
        destruct n as [|[|[|[|n]]]]; try lia; cbn [firstn app nth] in *;
          rewrite <- Hcmd; reflexivity. }
    pose proof (Hstep 0%nat "C"%string ltac:(lia)) as H0.
    pose proof (Hstep 1%nat "O"%string ltac:(lia)) as H1.
    pose proof (Hstep 2%nat ("S" ++ decimal (baudrate c))%string ltac:(lia)) as H2.
    pose proof (Hstep 3%nat "M1"%string ltac:(lia)) as H3. clear Hstep.
    remember (connect c) as r eqn:Hr.
    rewrite (connect_unfold c Hopen) in Hr. cbv zeta in Hr.
    generalize dependent (snd (_send_command "C" (connect_state 0 c))).
    generalize dependent (snd (_send_command "O" (connect_state 1 c))).
    generalize dependent
      (snd (_send_command ("S" ++ decimal (baudrate c)) (connect_state 2 c))).
    generalize dependent (snd (_send_command "M1" (connect_state 3 c))).
    intros.
    destruct (command_ok (connect_state 0 c)) eqn:E0;
      [|subst r; apply H0; [intros k Hk; lia | reflexivity | reflexivity]].
    destruct (command_ok (connect_state 1 c)) eqn:E1;
      [|subst r; apply H1;
        [intros k Hk; replace k with 0%nat by lia; assumption
        | reflexivity | reflexivity]].
    destruct (command_ok (connect_state 2 c)) eqn:E2;
      [|subst r; apply H2;
        [intros k Hk; destruct k as [|[|k]]; try lia; assumption
        | reflexivity | reflexivity]].
    destruct (command_ok (connect_state 3 c)) eqn:E3; [subst r; discriminate|].
    subst r. apply H3;
      [intros k Hk; destruct k as [|[|[|k]]]; try lia; assumption
      | reflexivity | reflexivity].
Qed.

(** A connector that is connected, on a port that cannot be opened again. *)
Definition busy_port : Connector :=
  mkConnector (mkWorld true 0 [] [] [] false) 500000 SerialOpen [true] [].

Lemma connect_failure_witness :
  fst (connect busy_port) = false /\
  is_connected (line (snd (connect busy_port))) = true.
Proof.
  split; [reflexivity|].
  exact (proj1 (connect_failure busy_port eq_refl)).
Defined.

Lemma _send_command_keeps (cmd : string) (c : Connector) :
  serial (snd (_send_command cmd c)) = serial c /\
  is_connected (line (snd (_send_command cmd c))) = is_connected (line c).
Proof.
  destruct (serial c) eqn:Hs.
  - unfold _send_command. rewrite Hs. cbn [snd]. now rewrite Hs.
  - destruct (_send_command_open cmd c Hs) as (_ & Hs1 & _ & _ & Hc & _).
    split; assumption.
  - unfold _send_command. rewrite Hs. cbn [snd]. now rewrite Hs.
Qed.

Lemma connect_opens (c : Connector) :
  hd false (open_faults c) = false -> serial (snd (connect c)) = SerialOpen.
Proof.
  intros Hopen.
  assert (Hs : forall n cmd,
             serial (snd (_send_command cmd (connect_state n c))) = SerialOpen).
  { intros n cmd. rewrite (proj1 (_send_command_keeps cmd (connect_state n c))).
    apply (connect_state_spec n c). }
  pose proof (Hs 0%nat "C"%string) as H0.
  pose proof (Hs 1%nat "O"%string) as H1.
  pose proof (Hs 2%nat ("S" ++ decimal (baudrate c))%string) as H2.
  pose proof (Hs 3%nat "M1"%string) as H3. clear Hs.
  remember (connect c) as r eqn:Hr.
  rewrite (connect_unfold c Hopen) in Hr. cbv zeta in Hr.
  generalize dependent (snd (_send_command "C" (connect_state 0 c))).
  generalize dependent (snd (_send_command "O" (connect_state 1 c))).
  generalize dependent (snd (_send_command ("S" ++ decimal (baudrate c)) (connect_state 2 c))).
  generalize dependent (snd (_send_command "M1" (connect_state 3 c))).
  intros.
  destruct (command_ok (connect_state 0 c)); [|subst r; exact H0].
  destruct (command_ok (connect_state 1 c)); [|subst r; exact H1].
  destruct (command_ok (connect_state 2 c)); [|subst r; exact H2].
  destruct (command_ok (connect_state 3 c)); [|subst r; exact H3].
  subst r. exact H3.
Qed.

(** A connector counts as connected only while its port is open. *)
Definition port_usable (c : Connector) : Prop :=
  is_connected (line c) = true -> serial c = SerialOpen.

(** [port_usable] holds of a new connector and is kept by [connect],
    [disconnect], [_send_command], [test_connection] and by the requests of
    the protocol engine: a connected connector never holds a closed or a
    missing port, which is what [send_can_frame] relies on when it writes. *)
Theorem port_usable_invariant :
  (forall rate, port_usable (OpenPortConnector_init rate)) /\
  (forall c,
      port_usable c ->
      port_usable (snd (connect c)) /\
      port_usable (disconnect c) /\
      (forall cmd, port_usable (snd (_send_command cmd c))) /\
      port_usable (snd (test_connection c)) /\
      (forall self data, port_usable (set_line (snd (_send_uds self data (line c))) c))).
Proof.
  split; [intros rate; unfold port_usable; cbn; discriminate|].
  intros c Hc.
  assert (Hcmd : forall cmd, port_usable (snd (_send_command cmd c))).
  { intros cmd. unfold port_usable.
    destruct (_send_command_keeps cmd c) as (-> & ->). exact Hc. }
  split; [|split; [|split; [exact Hcmd|split]]].
  - destruct (hd false (open_faults c)) eqn:Hopen.
    + unfold connect. destruct (open_faults c) as [|[|] rest]; try discriminate.
      exact Hc.
    + intros _. now apply connect_opens.
  - unfold port_usable, disconnect. cbn. discriminate.
  - unfold test_connection. specialize (Hcmd "V"%string).
    destruct (_send_command "V" c) as [[response|] c1]; exact Hcmd.
  - intros self data. unfold port_usable. connector_simpl.
    destruct (bytes_of_ints data) as [payload|] eqn:Hb.
    + destruct (_send_uds_outcome self data payload (line c) Hb) as (_ & -> & _).
      exact Hc.
    + unfold _send_uds. rewrite Hb. exact Hc.
Qed.

(** [disconnect] closes an open port and clears [is_connected].  From then
    on [send_can_frame] returns [False] and writes nothing,
    [receive_can_frame] returns [None] at once, [test_connection] returns
    [False] without writing, and a second [disconnect] changes nothing. *)
Theorem disconnect_closes (c : Connector) :
  let c' := disconnect c in
  is_connected (line c') = false /\
  serial c' <> SerialOpen /\
  serial_out (line c') = serial_out (line c) /\
  (forall can_id data,
      OpenPortConnector.send_can_frame can_id data (line c') = (false, line c')) /\
  (forall timeout,
      OpenPortConnector.receive_can_frame timeout (line c') = (None, line c')) /\
  test_connection c' = (false, c') /\
  disconnect c' = c'.
Proof.
  destruct c as [w rate h faults rs]. destruct h; cbn; repeat split; discriminate.
Qed.

Lemma contains_spec (needle text : string) :
  needle <> EmptyString ->
  contains needle text = true
  <-> exists m, substring m (String.length needle) text = needle.
Proof.
  intros Hne. unfold contains. destruct (String.index 0 needle text) as [m|] eqn:E.
  - split; [|reflexivity]. intros _. exists m. now apply index_correct1 with (n := 0%nat).
  - split; [discriminate|]. intros (m & Hm). exfalso.
    apply (index_correct3 0 m needle text E Hne); [lia | exact Hm].
Qed.

(** [test_connection] returns [True] exactly when the port is open, the
    write of the command [V] does not raise, and the adapter answers with a
    text that has [OpenPort] somewhere in it; it raises nothing, and it
    leaves [is_connected] as it was. *)
Theorem test_connection_spec (c : Connector) :
  (fst (test_connection c) = true
   <-> serial c = SerialOpen /\
       hd false (write_faults (line c)) = false /\
       exists r rest text,
         replies c = r :: rest /\ reply_text r = Some text /\
         exists m, substring m 8 text = "OpenPort"%string) /\
  is_connected (line (snd (test_connection c))) = is_connected (line c).
Proof.
  split.
  - unfold test_connection, _send_command, OpenPortConnector.serial_write.
    destruct (serial c) eqn:Hs.
    + split; [discriminate | intros (H & _); discriminate].
    + destruct (write_faults (line c)) as [|[|] wf]; cbn [hd];
        try (split; [discriminate | intros (_ & H & _); discriminate]);
        (destruct (replies c) as [|r rest];
         [split; [discriminate | intros (_ & _ & r & rest & text & H & _); discriminate]|]);
        (destruct (reply_text r) as [text|] eqn:Ht; cbn [fst];
         [|split; [discriminate|];
           intros (_ & _ & r' & rest' & text' & H & Ht' & _);
           inversion H; subst; congruence]);
        (rewrite (contains_spec "OpenPort" text) by discriminate;
         split;
         [intros Hm; repeat split; exists r, rest, text; auto
         |intros (_ & _ & r' & rest' & text' & H & Ht' & Hm);
          inversion H; subst; rewrite Ht in Ht'; inversion Ht'; subst; exact Hm]).
    + split; [discriminate | intros (H & _); discriminate].
  - unfold test_connection.
    pose proof (proj2 (_send_command_keeps "V" c)) as Hk.
    destruct (_send_command "V" c) as [[response|] c1]; exact Hk.
Qed.

Lemma hex_digit_top (upper : bool) (d : N) :
  hex_digit upper d = hex_digit upper (N.min d 15).
Proof.
  destruct (N.ltb_spec d 15) as [Hlt|Hge].
  - now rewrite N.min_l by lia.
  - rewrite N.min_r by lia.
    destruct d as [|p]; [lia|].
    do 4 (destruct p as [p|p|]; try lia; try reflexivity).
Qed.

Lemma below_16_cases (P : N -> Prop) :
  Forall P (map N.of_nat (seq 0 16)) -> forall d, (d < 16)%N -> P d.
Proof.
  intros Hall d Hd. rewrite Forall_forall in Hall. apply Hall.
  apply in_map_iff. exists (N.to_nat d). split; [lia|]. apply in_seq. lia.
Qed.

Lemma hex_digit_not_space (upper : bool) (d : N) : is_space (hex_digit upper d) = false.
Proof.
  rewrite hex_digit_top.
  apply (below_16_cases (fun d => is_space (hex_digit upper d) = false)); [|lia].
  destruct upper; repeat constructor.
Qed.

Lemma hex_value_hex_digit (upper : bool) (d : N) :
  (d < 16)%N -> hex_value (hex_digit upper d) = Some d.
Proof.
  apply (below_16_cases (fun d => hex_value (hex_digit upper d) = Some d)).
  destruct upper; repeat constructor.
Qed.

(** No character of the text is white space. *)
Fixpoint no_space (s : string) : bool :=
  match s with
  | String c rest => negb (is_space c) && no_space rest
  | EmptyString => true
  end.

Lemma no_space_app (s t : string) : no_space (s ++ t) = no_space s && no_space t.
Proof.
  induction s as [|c s IH]; cbn [no_space append]; [reflexivity|].
  now rewrite IH, andb_assoc.
Qed.

Lemma no_space_hex (data : bytes) : no_space (hex data) = true.
Proof.
  induction data as [|b data IH]; cbn [hex no_space]; [reflexivity|].
  now rewrite !hex_digit_not_space, IH.
Qed.

Lemma rstrip_CR (s : string) : no_space s = true -> rstrip (s ++ CR) = s.
Proof.
  induction s as [|c s IH]; cbn [no_space append rstrip]; intros H.
  - reflexivity.
  - apply andb_true_iff in H. destruct H as (Hc & Hs). rewrite (IH Hs).
    apply negb_true_iff in Hc. rewrite Hc. destruct s; reflexivity.
Qed.

Lemma kept_digits_hex (data : bytes) :
  bytes_of_digits (kept_digits (hex data)) = Some data.
Proof.
  induction data as [|b data IH]; cbn [hex kept_digits]; [reflexivity|].
  pose proof (Byte.to_N_bounded b) as Hb.
  assert (Hhi : (Byte.to_N b / 16 < 16)%N) by (apply N.Div0.div_lt_upper_bound; lia).
  assert (Hlo : (Byte.to_N b mod 16 < 16)%N) by (apply N.mod_lt; lia).
  rewrite (hex_value_hex_digit false _ Hhi), (hex_value_hex_digit false _ Hlo).
  cbn [bytes_of_digits]. rewrite IH.
  replace (16 * (Byte.to_N b / 16) + Byte.to_N b mod 16)%N with (Byte.to_N b)
    by (apply N.div_mod; lia).
  now rewrite Byte.of_to_N.
Qed.

(** The format [03X] of a number below [0x1000] is its three digits. *)
Definition format_03X_check (n : N) : bool :=
  String.eqb (format_03X (Z.of_N n))
             (three_digits (n / 256) ((n / 16) mod 16) (n mod 16)).

Lemma format_03X_checked : forallb format_03X_check (map N.of_nat (seq 0 4096)) = true.
Proof. vm_compute. reflexivity. Qed.

Lemma format_03X_three_digits (can_id : Z) :
  0 <= can_id < 0x1000 ->
  format_03X can_id
  = three_digits (Z.to_N can_id / 256) ((Z.to_N can_id / 16) mod 16) (Z.to_N can_id mod 16).
Proof.
  intros Hid. pose proof format_03X_checked as Hall.
  rewrite forallb_forall in Hall.
  specialize (Hall (Z.to_N can_id)).
  unfold format_03X_check in Hall. rewrite Z2N.id in Hall by lia.
  apply String.eqb_eq. apply Hall.
  apply in_map_iff. exists (Z.to_nat can_id). split; [lia|]. apply in_seq. lia.
Qed.

(** What [send_can_frame] writes for an arbitration id of at most three
    hexadecimal digits, [0 <= can_id <= 0xFFF], is read back by the parsing
    of [receive_can_frame] as the same arbitration id and the same payload,
    of whatever length, provided [int(text, 16)] reads a text of three
    hexadecimal digits as the number it spells. *)
Theorem frame_line_round_trip (int16 : string -> option Z) (can_id : Z) (data : bytes) :
  reads_three_digits int16 ->
  0 <= can_id <= 0xFFF ->
  parse_frame int16 (OpenPortConnector.frame_line can_id data) = Some (can_id, data).
Proof.
  intros Hint Hid. unfold parse_frame, OpenPortConnector.frame_line, strip.
  rewrite (format_03X_three_digits can_id) by lia.
  set (a := (Z.to_N can_id / 256)%N).
  set (b := ((Z.to_N can_id / 16) mod 16)%N).
  set (c := (Z.to_N can_id mod 16)%N).
  assert (Ha : (a < 16)%N) by (apply N.Div0.div_lt_upper_bound; lia).
  assert (Hb : (b < 16)%N) by (apply N.mod_lt; lia).
  assert (Hc : (c < 16)%N) by (apply N.mod_lt; lia).
  change ("t" ++ three_digits a b c ++ hex data ++ CR)%string
    with (String "t" (String (hex_digit true a) (String (hex_digit true b)
            (String (hex_digit true c) (hex data ++ CR)))))%string.
  cbn [lstrip]. change (is_space "t") with false. cbv iota.
  change (String "t" (String (hex_digit true a) (String (hex_digit true b)
            (String (hex_digit true c) (hex data ++ CR)))))%string
    with ((String "t" (String (hex_digit true a) (String (hex_digit true b)
            (String (hex_digit true c) (hex data))))) ++ CR)%string.
  rewrite rstrip_CR
    by (cbn [no_space]; rewrite !hex_digit_not_space, no_space_hex; reflexivity).
  cbn [substring drop]. 
  replace (substring 0 0 (hex data)) with EmptyString by (destruct (hex data); reflexivity).
  fold (three_digits a b c). rewrite (Hint a b c Ha Hb Hc), kept_digits_hex.
  do 2 f_equal.
  assert (Hsum : (256 * a + 16 * b + c)%N = Z.to_N can_id).
  { subst a b c.
    pose proof (N.div_mod (Z.to_N can_id) 16 ltac:(lia)) as H1.
    pose proof (N.div_mod (Z.to_N can_id / 16) 16 ltac:(lia)) as H2.
    replace (Z.to_N can_id / 256)%N with (Z.to_N can_id / 16 / 16)%N
      by (rewrite N.Div0.div_div; reflexivity).
    lia. }
  rewrite Hsum. lia.
Qed.

Lemma int16_three_reads : reads_three_digits int16_three.
Proof.
  intros a b c Ha Hb Hc. unfold int16_three, three_digits.
  now rewrite !hex_value_hex_digit by assumption.
Qed.

Lemma frame_line_round_trip_witness :
  (reads_three_digits int16_three /\ 0 <= 0x7E8 <= 0xFFF) /\
  parse_frame int16_three
    (OpenPortConnector.frame_line 0x7E8 (bytes_lit [0x62; 0xF1; 0x90; 0xAB]))
  = Some (0x7E8, bytes_lit [0x62; 0xF1; 0x90; 0xAB]).
Proof.
  split; [split; [exact int16_three_reads | lia]|].
  apply (frame_line_round_trip int16_three 0x7E8 (bytes_lit [0x62; 0xF1; 0x90; 0xAB])
           int16_three_reads).
  lia.
Defined.

Lemma hex_value_below_16 (c : ascii) (d : N) : hex_value c = Some d -> (d < 16)%N.
Proof.
  unfold hex_value.
  destruct ((48 <=? N_of_ascii c) && (N_of_ascii c <=? 57))%N eqn:E1.
  - apply andb_true_iff in E1. destruct E1 as (H1 & H2).
    apply N.leb_le in H1, H2. intros H. inversion H. lia.
  - destruct ((65 <=? N_of_ascii c) && (N_of_ascii c <=? 70))%N eqn:E2.
    + apply andb_true_iff in E2. destruct E2 as (H1 & H2).
      apply N.leb_le in H1, H2. intros H. inversion H. lia.
    + destruct ((97 <=? N_of_ascii c) && (N_of_ascii c <=? 102))%N eqn:E3; [|discriminate].
      apply andb_true_iff in E3. destruct E3 as (H1 & H2).
      apply N.leb_le in H1, H2. intros H. inversion H. lia.
Qed.

Lemma kept_digits_below_16 (s : string) : Forall (fun d => (d < 16)%N) (kept_digits s).
Proof.
  induction s as [|c s IH]; cbn [kept_digits]; [constructor|].
  destruct (hex_value c) as [d|] eqn:E; [|exact IH].
  constructor; [now apply (hex_value_below_16 c) | exact IH].
Qed.

(** Digits in pairs, as [bytes.fromhex] groups them. *)
Fixpoint pair_values (digits : list N) : list Z :=
  match digits with
  | hi :: lo :: rest => Z.of_N (16 * hi + lo) :: pair_values rest
  | _ => []
  end.

Lemma bytes_of_digits_spec (digits : list N) :
  Forall (fun d => (d < 16)%N) digits ->
  match bytes_of_digits digits with
  | Some data =>
      Nat.even (List.length digits) = true /\
      (2 * List.length data = List.length digits)%nat /\
      map byte_val data = pair_values digits
  | None => Nat.even (List.length digits) = false
  end.
Proof.
  revert digits. fix IH 1. intros [|hi [|lo rest]] Hall.
  - repeat split.
  - reflexivity.
  - inversion Hall as [|? ? Hhi Hall1]; subst.
    inversion Hall1 as [|? ? Hlo Hrest]; subst.
    specialize (IH rest Hrest). cbn [bytes_of_digits List.length Nat.even pair_values].
    destruct (Byte.of_N (16 * hi + lo)) as [b|] eqn:Eb.
    + destruct (bytes_of_digits rest) as [bs|].
      * destruct IH as (He & Hlen & Hval). cbn [List.length map].
        repeat split; [exact He | lia |].
        rewrite Hval. f_equal. unfold byte_val.
        apply Byte.to_of_N in Eb. now rewrite Eb.
      * exact IH.
    + apply Byte.of_N_None_iff in Eb. lia.
Qed.

(** A line gives a frame only when the number of hexadecimal digits after
    its first four characters is even, and then each pair of them is a byte
    of the payload, however many there are: characters that are not
    hexadecimal digits are skipped, and no length is imposed. *)
Theorem parse_frame_payload (int16 : string -> option Z) (text : string) :
  let digits := kept_digits (drop 4 (strip text)) in
  (forall can_id data,
      parse_frame int16 text = Some (can_id, data) ->
      Nat.even (List.length digits) = true /\
      (2 * List.length data = List.length digits)%nat /\
      map byte_val data = pair_values digits) /\
  (Nat.even (List.length digits) = false -> parse_frame int16 text = None).
Proof.
  cbv zeta. unfold parse_frame.
  pose proof (bytes_of_digits_spec _ (kept_digits_below_16 (drop 4 (strip text)))) as Hspec.
  split.
  - intros can_id data Hres.
    destruct (strip text) as [|c rest]; [discriminate|].
    destruct (Ascii.eqb c "t") eqn:Ec.
    + apply Ascii.eqb_eq in Ec. subst c.
      destruct (int16 _) as [i|]; [|discriminate].
      destruct (bytes_of_digits _) as [d|]; [|discriminate].
      inversion Hres; subst. exact Hspec.
    + exfalso. revert Hres Ec.
      destruct c as [[|] [|] [|] [|] [|] [|] [|] [|]]; try discriminate.
  - intros Hodd.
    destruct (bytes_of_digits _) as [d|]; [destruct Hspec as (He & _); congruence|].
    destruct (strip text) as [|c rest]; [reflexivity|].
    destruct c as [[|] [|] [|] [|] [|] [|] [|] [|]]; try reflexivity;
      destruct (int16 _); reflexivity.
Qed.

Example parse_frame_long_payload :
  parse_frame int16_three "t7E8 00 01 02 03 04 05 06 07 08 09"%string
  = Some (0x7E8, bytes_lit [0; 1; 2; 3; 4; 5; 6; 7; 8; 9]).
Proof. vm_compute. reflexivity. Qed.

Lemma hex_digits_length (upper : bool) (k : nat) :
  forall (fuel : nat) (n : N) (acc : string),
    (n < 16 ^ N.of_nat k)%N ->
    (String.length (hex_digits fuel upper n acc) <= String.length acc + Nat.max k 1)%nat.
Proof.
  induction k as [|k IH]; intros fuel n acc Hn.
  - change (16 ^ N.of_nat 0)%N with 1%N in Hn.
    assert (n = 0%N) by lia. subst n.
    destruct fuel as [|fuel]; cbn [hex_digits]; [lia|].
    change (0 / 16 =? 0)%N with true. cbn [String.length]. lia.
  - destruct fuel as [|fuel]; cbn [hex_digits]; [lia|].
    destruct (n / 16 =? 0)%N eqn:E; [cbn [String.length]; lia|].
    apply N.eqb_neq in E.
    specialize (IH fuel (n / 16)%N (String (hex_digit upper (n mod 16)) acc)).
    cbn [String.length] in IH.
    assert (Hdiv : (n / 16 < 16 ^ N.of_nat k)%N).
    { apply N.Div0.div_lt_upper_bound.
      replace (N.of_nat (S k)) with (N.succ (N.of_nat k)) in Hn by lia.
      rewrite N.pow_succ_r' in Hn. exact Hn. }
    specialize (IH Hdiv).
    destruct k as [|k]; [|lia].
    change (16 ^ N.of_nat 0)%N with 1%N in Hdiv.
    exfalso. apply E. apply N.lt_1_r. exact Hdiv.
Qed.

Lemma string_app_assoc (s t u : string) : ((s ++ t) ++ u = s ++ (t ++ u))%string.
Proof.
  induction s as [|c s IH]; cbn [append]; [reflexivity | now rewrite IH].
Qed.

Lemma zeros_length (k : nat) : String.length (zeros k) = k.
Proof.
  induction k as [|k IH]; cbn [zeros String.length]; [reflexivity | now rewrite IH].
Qed.

Lemma spaces_length (k : nat) : String.length (spaces k) = k.
Proof.
  induction k as [|k IH]; cbn [spaces String.length]; [reflexivity | now rewrite IH].
Qed.

Lemma format_X_4_length (i : Z) : 0 <= i < 0x10000 -> String.length (format_X 4 i) = 4%nat.
Proof.
  intros Hi. unfold format_X.
  replace (i <? 0) with false by (symmetry; apply Z.ltb_ge; lia).
  assert (Hlen : (String.length (to_hex true (Z.abs_N i)) <= 4)%nat).
  { unfold to_hex.
    pose proof (hex_digits_length true 4 (S (N.to_nat (N.size (Z.abs_N i))))
                  (Z.abs_N i) EmptyString) as Hd.
    change (16 ^ N.of_nat 4)%N with 65536%N in Hd. cbn [String.length Nat.max] in Hd.
    apply Hd. lia. }
  cbn [append String.length]. rewrite string_length_app, zeros_length. lia.
Qed.

Lemma substring_skip (s t : string) (n m : nat) :
  String.length s = n -> substring n m (s ++ t) = substring 0 m t.
Proof.
  intros <-.
  induction s as [|c s IH]; cbn [String.length append substring]; [reflexivity | exact IH].
Qed.

Lemma substring_prefix (s t : string) (m : nat) :
  String.length s = m -> substring 0 m (s ++ t) = s.
Proof.
  intros <-.
  induction s as [|c s IH]; cbn [String.length append substring].
  - destruct t; reflexivity.
  - now rewrite IH.
Qed.

Lemma kept_digits_app (s t : string) :
  kept_digits (s ++ t) = kept_digits s ++ kept_digits t.
Proof.
  induction s as [|c s IH]; cbn [append kept_digits]; [reflexivity|].
  destruct (hex_value c); cbn [app]; now rewrite IH.
Qed.

Lemma kept_digits_spaces (k : nat) : kept_digits (spaces k) = [].
Proof.
  induction k as [|k IH]; cbn [spaces kept_digits]; [reflexivity | exact IH].
Qed.

(** The format [02X] of a byte: two digits. *)
Definition format_X_2_check (n : N) : bool :=
  String.eqb (format_X 2 (Z.of_N n))
             (String (hex_digit true (n / 16)) (String (hex_digit true (n mod 16)) EmptyString)).

Lemma format_X_2_checked : forallb format_X_2_check (map N.of_nat (seq 0 256)) = true.
Proof. vm_compute. reflexivity. Qed.

Lemma format_X_2_byte (b : byte) :
  format_X 2 (byte_val b)
  = String (hex_digit true (Byte.to_N b / 16))
           (String (hex_digit true (Byte.to_N b mod 16)) EmptyString).
Proof.
  pose proof format_X_2_checked as Hall. rewrite forallb_forall in Hall.
  pose proof (Byte.to_N_bounded b) as Hb.
  apply String.eqb_eq. apply (Hall (Byte.to_N b)).
  apply in_map_iff. exists (N.to_nat (Byte.to_N b)). split; [lia|]. apply in_seq. lia.
Qed.

Lemma join_space_cons (x : string) (items : list string) :
  join_space (x :: items)
  = (x ++ match items with [] => EmptyString | _ => " " ++ join_space items end)%string.
Proof.
  destruct items; cbn [join_space]; [|reflexivity].
  induction x as [|c x IH]; cbn [append]; [reflexivity | now rewrite <- IH].
Qed.

Lemma join_space_bytes (chunk : bytes) :
  String.length (join_space (map (fun b => format_X 2 (byte_val b)) chunk))
  = (3 * List.length chunk - 1)%nat /\
  bytes_of_digits (kept_digits (join_space (map (fun b => format_X 2 (byte_val b)) chunk)))
  = Some chunk.
Proof.
  induction chunk as [|b chunk IH]; [split; reflexivity|].
  cbn [map]. rewrite join_space_cons, format_X_2_byte.
  destruct IH as (Hlen & Hdec).
  pose proof (Byte.to_N_bounded b) as Hb.
  assert (Hhi : (Byte.to_N b / 16 < 16)%N) by (apply N.Div0.div_lt_upper_bound; lia).
  assert (Hlo : (Byte.to_N b mod 16 < 16)%N) by (apply N.mod_lt; lia).
  split.
  - cbn [append String.length List.length].
    destruct chunk as [|b' chunk]; [reflexivity|].
    cbn [map append String.length] in *. rewrite Hlen. cbn [List.length]. lia.
  - rewrite kept_digits_app.
    replace (kept_digits
               match map (fun b0 => format_X 2 (byte_val b0)) chunk with
               | [] => EmptyString
               | _ :: _ =>
                   (" " ++ join_space (map (fun b0 => format_X 2 (byte_val b0)) chunk))%string
               end)
      with (kept_digits (join_space (map (fun b0 => format_X 2 (byte_val b0)) chunk)))
      by (destruct chunk; reflexivity).
    cbn [kept_digits].
    rewrite (hex_value_hex_digit true _ Hhi), (hex_value_hex_digit true _ Hlo).
    cbn [app bytes_of_digits]. rewrite Hdec.
    replace (16 * (Byte.to_N b / 16) + Byte.to_N b mod 16)%N with (Byte.to_N b)
      by (apply N.div_mod; lia).
    now rewrite Byte.of_to_N.
Qed.

Lemma hex_column_spec (chunk : bytes) :
  (List.length chunk <= 16)%nat ->
  String.length (hex_column chunk) = 47%nat /\
  bytes_of_digits (kept_digits (hex_column chunk)) = Some chunk.
Proof.
  intros Hlen. unfold hex_column, ljust.
  destruct (join_space_bytes chunk) as (Hl & Hd). split.
  - rewrite string_length_app, spaces_length, Hl. lia.
  - now rewrite kept_digits_app, kept_digits_spaces, app_nil_r.
Qed.

Lemma ascii_column_length (chunk : bytes) :
  String.length (ascii_column chunk) = List.length chunk.
Proof.
  induction chunk as [|b chunk IH]; cbn [ascii_column String.length List.length];
    [reflexivity | now rewrite IH].
Qed.

Lemma dump_line_columns (i : Z) (chunk : bytes) :
  0 <= i < 0x10000 ->
  (List.length chunk <= 16)%nat ->
  String.length (dump_line i chunk) = (57 + List.length chunk)%nat /\
  substring 0 4 (dump_line i chunk) = format_X 4 i /\
  substring 7 47 (dump_line i chunk) = hex_column chunk /\
  bytes_of_digits (kept_digits (substring 7 47 (dump_line i chunk))) = Some chunk /\
  substring 56 (List.length chunk) (dump_line i chunk) = ascii_column chunk.
Proof.
  intros Hi Hlen.
  pose proof (format_X_4_length i Hi) as H4.
  destruct (hex_column_spec chunk Hlen) as (H47 & Hdec).
  assert (Hhex : substring 7 47 (dump_line i chunk) = hex_column chunk).
  { unfold dump_line.
    replace (format_X 4 i ++ ":  " ++ hex_column chunk ++ "  " ++ ascii_column chunk ++ LF)%string
      with ((format_X 4 i ++ ":  ") ++ hex_column chunk ++ "  " ++ ascii_column chunk ++ LF)%string
      by (now rewrite !string_app_assoc).
    rewrite (substring_skip (format_X 4 i ++ ":  ") _ 7 47)
      by (rewrite string_length_app, H4; reflexivity).
    apply substring_prefix. exact H47. }
  split; [|split; [|split; [exact Hhex|split]]].
  - unfold dump_line. rewrite !string_length_app, H4, H47, ascii_column_length.
    cbn [String.length LF]. lia.
  - unfold dump_line. apply substring_prefix. exact H4.
  - rewrite Hhex. exact Hdec.
  - unfold dump_line.
    replace (format_X 4 i ++ ":  " ++ hex_column chunk ++ "  " ++ ascii_column chunk ++ LF)%string
      with ((format_X 4 i ++ ":  " ++ hex_column chunk ++ "  ") ++ ascii_column chunk ++ LF)%string
      by (now rewrite !string_app_assoc).
    rewrite (substring_skip (format_X 4 i ++ ":  " ++ hex_column chunk ++ "  ") _ 56)
      by (rewrite !string_length_app, H4, H47; reflexivity).
    apply substring_prefix. apply ascii_column_length.
Qed.

(** A line of the viewer for an offset below [0x10000] and a chunk of at most
    16 bytes has the offset in columns 0 to 3, the bytes in hexadecimal in
    the 47 columns from column 7, from which the chunk can be read back, and
    one character for each byte from column 56, before the line feed. *)
Theorem dump_line_shape (i : Z) (chunk : bytes) :
  0 <= i < 0x10000 ->
  (List.length chunk <= 16)%nat ->
  String.length (dump_line i chunk) = (57 + List.length chunk)%nat /\
  substring 0 4 (dump_line i chunk) = format_X 4 i /\
  substring 7 47 (dump_line i chunk) = hex_column chunk /\
  bytes_of_digits (kept_digits (substring 7 47 (dump_line i chunk))) = Some chunk /\
  substring 56 (List.length chunk) (dump_line i chunk) = ascii_column chunk.
Proof.
  exact (dump_line_columns i chunk).
Qed.

(** The last line of a dump of eighteen bytes. *)
Definition short_chunk : bytes := bytes_lit [0x0B; 0x61].

Lemma dump_line_shape_witness :
  (0 <= 0x10 < 0x10000 /\ (List.length short_chunk <= 16)%nat) /\
  String.length (dump_line 0x10 short_chunk) = 59%nat /\
  bytes_of_digits (kept_digits (substring 7 47 (dump_line 0x10 short_chunk)))
  = Some short_chunk.
Proof.
  split; [split; [lia | cbn; lia]|].
  destruct (dump_line_shape 0x10 short_chunk ltac:(lia) ltac:(cbn; lia))
    as (Hlen & _ & _ & Hdec & _).
  split; [exact Hlen | exact Hdec].
Defined.

Lemma firstn_plus {A} (a b : nat) (l : list A) :
  firstn (a + b) l = firstn a l ++ firstn b (skipn a l).
Proof.
  revert l. induction a as [|a IH]; intros l; cbn [Nat.add firstn skipn app]; [reflexivity|].
  destruct l as [|x l]; cbn [firstn skipn app].
  - now destruct b.
  - now rewrite IH.
Qed.

Lemma chunks_concat {A} (data : list A) (n : nat) :
  List.concat (map (fun k => firstn 16 (skipn (16 * k) data)) (seq 0 n))
  = firstn (16 * n) data.
Proof.
  induction n as [|n IH].
  - reflexivity.
  - rewrite seq_S, map_app, concat_app, IH. cbn [map List.concat Nat.add].
    rewrite app_nil_r. replace (16 * S n)%nat with (16 * n + 16)%nat by lia.
    now rewrite firstn_plus.
Qed.

(** The bytes that columns 7 to 53 of a line of the viewer spell. *)
Definition decode_dump_line (line : string) : bytes :=
  match bytes_of_digits (kept_digits (substring 7 47 line)) with
  | Some chunk => chunk
  | None => []
  end.

(** The viewer loses nothing of a block of at most [0x10000] bytes: it shows
    one line for every 16 bytes begun, and the bytes spelled by the
    hexadecimal columns of its lines, in order, are the block. *)
Theorem display_hex_data_round_trip (data : bytes) :
  Z.of_nat (List.length data) <= 0x10000 ->
  display_hex_data data = String.concat EmptyString (dump_lines data) /\
  List.length (dump_lines data) = ((List.length data + 15) / 16)%nat /\
  List.concat (map decode_dump_line (dump_lines data)) = data.
Proof.
  intros Hlen. split; [reflexivity|].
  unfold dump_lines, range. change (16 =? 0) with false. cbv iota.
  unfold range_len. change (0 <? 16) with true. cbv iota.
  set (n := Z.to_nat (Z.max 0 ((Z.of_nat (List.length data) - 0 + 16 - 1) / 16))).
  assert (Hn : n = ((List.length data + 15) / 16)%nat).
  { subst n. rewrite Z.max_r by (apply Z.div_pos; lia).
    replace (Z.of_nat (List.length data) - 0 + 16 - 1)
      with (Z.of_nat (List.length data + 15)) by lia.
    change 16 with (Z.of_nat 16). rewrite <- Nat2Z.inj_div. apply Nat2Z.id. }
  split.
  - now rewrite !length_map, length_seq.
  - rewrite !map_map.
    assert (Hmul : (16 * n <= List.length data + 15)%nat)
      by (rewrite Hn; apply Nat.Div0.mul_div_le).
    assert (Hcover : (List.length data <= 16 * n)%nat).
    { rewrite Hn.
      pose proof (Nat.div_mod (List.length data + 15) 16 ltac:(lia)) as Hd.
      pose proof (Nat.mod_upper_bound (List.length data + 15) 16 ltac:(lia)) as Hm.
      lia. }
    rewrite (map_ext_in _ (fun k => firstn 16 (skipn (16 * k) data))).
    + rewrite chunks_concat. now apply firstn_all2.
    + intros k Hk. apply in_seq in Hk. unfold decode_dump_line.
      destruct (dump_line_columns (0 + Z.of_nat k * 16)
                  (chunk_at data (0 + Z.of_nat k * 16)))
        as (_ & _ & _ & Hdec & _).
      * lia.
      * unfold chunk_at. apply firstn_le_length.
      * rewrite Hdec. unfold chunk_at. do 2 f_equal. lia.
Qed.

(** Eighteen bytes, shown on two lines. *)
Definition eighteen_bytes : bytes :=
  bytes_lit [0x41; 0x42; 0x00; 0x7E; 0x7F; 0xFF; 1; 2; 3; 4; 5; 6; 7; 8; 9; 10; 11; 0x61].

Lemma display_hex_data_round_trip_witness :
  Z.of_nat (List.length eighteen_bytes) <= 0x10000 /\
  List.length (dump_lines eighteen_bytes) = 2%nat /\
  List.concat (map decode_dump_line (dump_lines eighteen_bytes)) = eighteen_bytes.
Proof.
  assert (Hlen : Z.of_nat (List.length eighteen_bytes) <= 0x10000)
    by (apply Z.leb_le; vm_compute; reflexivity).
  split; [exact Hlen|].
  destruct (display_hex_data_round_trip eighteen_bytes Hlen) as (_ & Hn & Hdec).
  split; [exact Hn | exact Hdec].
Defined.

(** A new connector, before and after a [connect] that succeeds. *)
Lemma port_usable_invariant_witness :
  port_usable mute_adapter /\
  port_usable (snd (connect mute_adapter)) /\
  port_usable (disconnect (snd (connect mute_adapter))).
Proof.
  destruct port_usable_invariant as (Hinit & Hkeep).
  pose proof (Hinit 500000) as H0.
  destruct (Hkeep mute_adapter H0) as (H1 & _).
  destruct (Hkeep (snd (connect mute_adapter)) H1) as (_ & H2 & _).
  split; [exact H0 | split; [exact H1 | exact H2]].
Defined.

Definition ten_bytes : bytes := bytes_lit [0; 1; 2; 3; 4; 5; 6; 7; 8; 9]%Z.

(** A line with ten bytes of payload and one with a digit too many. *)
Lemma parse_frame_payload_witness :
  parse_frame int16_three "t7E8 00 01 02 03 04 05 06 07 08 09"%string
  = Some (0x7E8, ten_bytes) /\
  (2 * List.length ten_bytes)%nat = 20%nat /\
  parse_frame int16_three "t7E8621"%string = None.
Proof.
  split; [vm_compute; reflexivity|]. split.
  - destruct (proj1 (parse_frame_payload int16_three
                       "t7E8 00 01 02 03 04 05 06 07 08 09"%string)
                    0x7E8 ten_bytes eq_refl) as (_ & Hlen & _).
    exact Hlen.
  - apply (proj2 (parse_frame_payload int16_three "t7E8621"%string)). reflexivity.
Defined.
